(** * QuayOS turtle command dispatcher: the MQTT status handler

    A shallow embedding of [src/lib/mqtt-client/client.js] and the
    properties of [Client.statusHandler]:

    - the topic pattern [/([^/]+)\/status$/] as a backtracking matcher over
      strings;
    - JavaScript values with a store of objects, so that the payload object
      the caller hands over and the one the registry receives are one and the
      same cell;
    - the handler as a computation in a small state-and-exception monad that
      records log entries and registry calls;
    - the turtle manager (the registry) as an arbitrary collaborator: every
      call may return, throw, or hand back a promise that fulfils, rejects
      or never settles. *)

From stdpp Require Import base option list strings gmap.
From Stdlib Require Import ZArith Lia.
From Stdlib Require Ascii String.

Import (notations) Stdlib.Strings.Ascii.

Abbreviation ascii := Stdlib.Strings.Ascii.ascii.

Local Open Scope Z_scope.
Local Open Scope stdpp_scope.

(** ** The topic pattern *)

Module Topic.

(** The character class [[^/]]. Topics are byte strings here; the byte of
    ['/'] never occurs inside a multi-byte UTF-8 sequence, so the class
    reads the same on bytes as on UTF-16 code units. *)
Definition not_slash (c : ascii) : bool := negb (Stdlib.Strings.Ascii.eqb c "/"%char).

(** The tail of the pattern, [\/status$]: what is left of the input is the
    literal [/status] and then the end of the input. *)
Definition status_end (rest : string) : bool := String.eqb rest "/status".

(** One attempt of [([^/]+)\/status$] at the head of [s]. The class has to
    take one character; after it the greedy [+] first tries to take more,
    and only when that fails does the matcher go on with the tail of the
    pattern. [acc] is what group 1 holds so far. *)
Fixpoint attempt (acc s : string) : option string :=
  match s with
  | EmptyString => None
  | String c rest =>
      if not_slash c then
        match attempt (acc +:+ String c EmptyString) rest with
        | Some id => Some id
        | None =>
            if status_end rest
            then Some (acc +:+ String c EmptyString)
            else None
        end
      else None
  end.

(** [topic.match(/([^/]+)\/status$/)] followed by [turtleIdMatch[1]]: the
    pattern is not anchored at the start, so the attempts go through the
    start positions from left to right and the first success wins. [None]
    is the [null] that [match] returns. *)
Fixpoint turtleIdMatch (topic : string) : option string :=
  match attempt EmptyString topic with
  | Some id => Some id
  | None =>
      match topic with
      | EmptyString => None
      | String _ rest => turtleIdMatch rest
      end
  end.

(** A path segment: no ['/'] in it. *)
Fixpoint slash_free (s : string) : bool :=
  match s with
  | EmptyString => true
  | String c rest => not_slash c && slash_free rest
  end.

(** The topic a device [id] publishes its status on, under [base]. *)
Definition status_topic (base id : string) : string :=
  base +:+ "/" +:+ id +:+ "/status".

(** [topic] has the shape [<base>/<id>/status]: some non-empty segment
    stands between [base ++ "/"] and ["/status"]. *)
Definition has_shape (base topic : string) : Prop :=
  exists id, id <> EmptyString /\ slash_free id = true /\
             topic = status_topic base id.

End Topic.

(** ** JavaScript values and the store *)

Abbreviation loc := positive (only parsing).

(** A value is a primitive or a reference to an object of the store. Numbers
    are the integers a payload carries, and [VNaN]; [0] and [NaN] are the
    falsy numbers. *)
Inductive value : Type :=
| VUndefined
| VNull
| VBool (b : bool)
| VNumber (n : Z)
| VNaN
| VString (s : string)
| VRef (l : loc).

(** An object of the store: a plain object with its own properties, or an
    array with its elements (and the named properties an array may be
    given). *)
Inductive obj : Type :=
| Obj (props : gmap string value)
| Arr (elems : list value) (props : gmap string value).

Global Instance value_eq_dec : EqDecision value.
Proof. solve_decision. Defined.

Global Instance obj_eq_dec : EqDecision obj.
Proof. solve_decision. Defined.

Definition props_of (o : obj) : gmap string value :=
  match o with
  | Obj ps => ps
  | Arr _ ps => ps
  end.

Definition with_props (o : obj) (ps : gmap string value) : obj :=
  match o with
  | Obj _ => Obj ps
  | Arr es _ => Arr es ps
  end.

(** A reference always points at an object; a location outside the finite
    map reads as the empty object, and allocation never hands out a location
    of the map. *)
Definition obj_at (h : gmap loc obj) (l : loc) : obj :=
  default (Obj ∅) (h !! l).

(** ToBoolean. *)
Definition to_boolean (v : value) : bool :=
  match v with
  | VUndefined | VNull | VNaN => false
  | VBool b => b
  | VNumber n => negb (n =? 0)
  | VString s => negb (String.eqb s EmptyString)
  | VRef _ => true
  end.

(** [message === null]. *)
Definition is_null (v : value) : bool :=
  match v with
  | VNull => true
  | _ => false
  end.

(** [Array.isArray(v)]. *)
Definition isArray (h : gmap loc obj) (v : value) : bool :=
  match v with
  | VRef l =>
      match h !! l with
      | Some (Arr _ _) => true
      | _ => false
      end
  | _ => false
  end.

(** The callback of the [map] in the handler:
    [slot => Array.isArray(slot) ? null : slot]. *)
Definition sanitize_slot (h : gmap loc obj) (slot : value) : value :=
  if isArray h slot then VNull else slot.

(** ** The registry and what the handler leaves behind *)

(** How an awaited promise ends. *)
Inductive settlement : Type :=
| Fulfils
| RejectsWith (reason : value)
| NeverSettles.

(** What a registry method hands back: something that is no promise, or a
    promise. *)
Inductive returned : Type :=
| Plain
| Promise (s : settlement).

(** A call returns or throws; any value can be thrown. *)
Inductive call_outcome (A : Type) : Type :=
| Returns (a : A)
| Throws (e : value).
Arguments Returns {A} a.
Arguments Throws {A} e.

(** The handle [getTurtle] gives: [updateStatus(message)] sees the message
    and the store as they are when it is called. *)
Record Turtle : Type := {
  updateStatus : value -> gmap loc obj -> call_outcome returned
}.

(** [module:models/turtle-manager~TurtleManager], an arbitrary collaborator.
    [getTurtle] may hand back something with no [updateStatus] method
    ([None]). Its methods read the store and do not write it. *)
Record TurtleManager : Type := {
  deleteTurtle : string -> call_outcome returned;
  getTurtle : string -> call_outcome (option Turtle)
}.

(** What the handler does that can be seen from outside: log entries and
    registry calls, in order. [CallUpdateStatus] keeps the argument and the
    store at the moment of the call. *)
Inductive event : Type :=
| LogError (topic : string)
| LogVerbose (turtleId : string) (status : value) (topic : string)
| LogWarn (stack : value)
| CallDeleteTurtle (turtleId : string)
| CallGetTurtle (turtleId : string)
| CallUpdateStatus (turtleId : string) (message : value) (h : gmap loc obj).

Record world : Type := World {
  heap : gmap loc obj;
  trace : list event;
  (** reasons of rejected promises nobody awaits or handles *)
  unhandled : list value
}.

(** ** The monad of the handler's body *)

Inductive completion (A : Type) : Type :=
| Normal (a : A)
| Abrupt (e : value)      (* an exception is on its way up *)
| Blocked.                (* suspended at an [await] that never resumes *)
Arguments Normal {A} a.
Arguments Abrupt {A} e.
Arguments Blocked {A}.

Definition M (A : Type) : Type := world -> completion A * world.

Global Instance M_ret : MRet M := fun A a w => (Normal a, w).

Global Instance M_bind : MBind M := fun A B f m w =>
  match m w with
  | (Normal a, w') => f a w'
  | (Abrupt e, w') => (Abrupt e, w')
  | (Blocked, w') => (Blocked, w')
  end.

Definition throw {A} (e : value) : M A := fun w => (Abrupt e, w).

Definition block {A} : M A := fun w => (Blocked, w).

(** [try { body } catch (err) { handler }]. *)
Definition try_catch {A} (body : M A) (handler : value -> M A) : M A :=
  fun w =>
    match body w with
    | (Abrupt e, w') => handler e w'
    | r => r
    end.

Definition get_heap : M (gmap loc obj) := fun w => (Normal (heap w), w).

Definition emit (e : event) : M unit := fun w =>
  (Normal tt, World (heap w) (trace w ++ [e]) (unhandled w)).

Definition alloc (o : obj) : M value := fun w =>
  let l := fresh (dom (heap w)) in
  (Normal (VRef l), World (<[l := o]> (heap w)) (trace w) (unhandled w)).

Definition store (l : loc) (o : obj) : M unit := fun w =>
  (Normal tt, World (<[l := o]> (heap w)) (trace w) (unhandled w)).

(** The runtime's [TypeError]: a new error object, with a stack. *)
Definition type_error {A} (msg : string) : M A :=
  err ← alloc (Obj (<["name" := VString "TypeError"]>
                    (<["message" := VString msg]>
                    (<["stack" := VString ("TypeError: " +:+ msg)]> ∅))));
  throw err.

(** [v.key] for the data properties the handler reads ([online],
    [inventory], [stack]): reading a property of [undefined] or [null]
    throws, a primitive has none of them, an object has the ones it
    holds. *)
Definition get_prop (v : value) (key : string) : M value :=
  match v with
  | VUndefined => type_error ("Cannot read properties of undefined (reading '" +:+ key +:+ "')")
  | VNull => type_error ("Cannot read properties of null (reading '" +:+ key +:+ "')")
  | VRef l =>
      h ← get_heap;
      mret (default VUndefined (props_of (obj_at h l) !! key))
  | _ => mret VUndefined
  end.

(** [v.key = x] in strict mode; the handler only gets here with [v] an
    object. *)
Definition set_prop (v : value) (key : string) (x : value) : M unit :=
  match v with
  | VRef l =>
      h ← get_heap;
      store l (with_props (obj_at h l) (<[key := x]> (props_of (obj_at h l))))
  | VUndefined => type_error ("Cannot set properties of undefined (setting '" +:+ key +:+ "')")
  | VNull => type_error ("Cannot set properties of null (setting '" +:+ key +:+ "')")
  | _ => type_error ("Cannot create property '" +:+ key +:+ "'")
  end.

(** [v.map(f)]. On [undefined] or [null] the property read throws. An
    array with no property of its own called [map] inherits
    [Array.prototype.map], which builds a new array of the images, in
    order. Anything else a payload can hold has no callable [map]: the
    model has no function values, so an own [map] is not callable either. *)
Definition call_map (v : value) (f : gmap loc obj -> value -> value) : M value :=
  match v with
  | VUndefined => type_error "Cannot read properties of undefined (reading 'map')"
  | VNull => type_error "Cannot read properties of null (reading 'map')"
  | VRef l =>
      h ← get_heap;
      match h !! l with
      | Some (Arr es ps) =>
          match ps !! "map" with
          | None => alloc (Arr (f h <$> es) ∅)
          | Some _ => type_error "message.inventory.map is not a function"
          end
      | _ => type_error "message.inventory.map is not a function"
      end
  | _ => type_error "message.inventory.map is not a function"
  end.

(** A call into the registry, where it throws. *)
Definition outcome {A} (c : call_outcome A) : M A :=
  match c with
  | Returns a => mret a
  | Throws e => throw e
  end.

(** [await r]. *)
Definition await (r : returned) : M unit :=
  match r with
  | Plain | Promise Fulfils => mret tt
  | Promise (RejectsWith e) => throw e
  | Promise NeverSettles => block
  end.

(** An expression statement whose value is dropped: a promise that rejects
    has nobody to catch its reason. *)
Definition drop (r : returned) : M unit :=
  match r with
  | Promise (RejectsWith e) => fun w =>
      (Normal tt, World (heap w) (trace w) (unhandled w ++ [e]))
  | _ => mret tt
  end.

(** ** The client *)

Record Options : Type := {
  opt_server : option string;
  opt_baseTopic : option string
}.

Record Client : Type := {
  server : string;
  baseTopic : string;
  turtles : TurtleManager
}.

(** [(options && options.key) || dflt]: a missing or empty string gives the
    default. *)
Definition or_default (o : option string) (dflt : string) : string :=
  match o with
  | Some s => if String.eqb s EmptyString then dflt else s
  | None => dflt
  end.

(** [constructor (turtleManager, options)]. *)
Definition new_Client (turtleManager : TurtleManager) (options : option Options) : Client :=
  {| server := or_default (options ≫= opt_server) "mqtt://test.mosquitto.org";
     baseTopic := or_default (options ≫= opt_baseTopic) "quayos/turtles";
     turtles := turtleManager |}.

(** The topic filter [run] subscribes [statusHandler] to. *)
Definition subscription (this : Client) : string :=
  baseTopic this +:+ "/+/status".

(** Line 81, [this.turtles.deleteTurtle(turtleId)]: the call is a statement
    of its own, what it returns is not awaited. *)
Definition delete_record (this : Client) (turtleId : string) : M unit :=
  emit (CallDeleteTurtle turtleId);;
  r ← outcome (deleteTurtle (turtles this) turtleId);
  drop r.

(** Lines 83-85,
    [if (message.online) { message.inventory = message.inventory.map(...) }]:
    the new array is written into the object [message] refers to. *)
Definition sanitize_inventory (message : value) : M unit :=
  online ← get_prop message "online";
  if to_boolean online then
    inventory ← get_prop message "inventory";
    sanitized ← call_map inventory sanitize_slot;
    set_prop message "inventory" sanitized
  else mret tt.

(** Line 86,
    [await (this.turtles.getTurtle(turtleId).updateStatus(message))]. *)
Definition forward_status (this : Client) (turtleId : string) (message : value) : M unit :=
  emit (CallGetTurtle turtleId);;
  turtle ← outcome (getTurtle (turtles this) turtleId);
  match turtle with
  | None => type_error "this.turtles.getTurtle(...).updateStatus is not a function"
  | Some t =>
      h ← get_heap;
      emit (CallUpdateStatus turtleId message h);;
      r ← outcome (updateStatus t message h);
      await r
  end.

(** Lines 88-90, the [catch (err)] block:
    [log.warn('Failed to update turtle status', { err: err.stack })]. *)
Definition warn_failure (err : value) : M unit :=
  stack ← get_prop err "stack";
  emit (LogWarn stack).

(** The body of [async statusHandler (message, topic)]. *)
Definition statusHandler_body (this : Client) (message : value) (topic : string) : M unit :=
  match Topic.turtleIdMatch topic with
  | None => emit (LogError topic)
  | Some turtleId =>
      emit (LogVerbose turtleId message topic);;
      try_catch
        (if is_null message then delete_record this turtleId
         else
           sanitize_inventory message;;
           forward_status this turtleId message)
        warn_failure
  end.

(** The promise an [async] function returns: fulfilled when the body runs
    to its end, rejected with what the body throws, pending for ever when
    the body never resumes. *)
Definition settle (c : completion unit) : settlement :=
  match c with
  | Normal _ => Fulfils
  | Abrupt e => RejectsWith e
  | Blocked => NeverSettles
  end.

(** One call [statusHandler(message, topic)] on the store [h]. *)
Definition statusHandler (this : Client) (message : value) (topic : string)
    (h : gmap loc obj) : settlement * world :=
  let (c, w) := statusHandler_body this message topic (World h [] []) in
  (settle c, w).

(** ** Reading a run *)

Definition is_registry_call (e : event) : bool :=
  match e with
  | CallDeleteTurtle _ | CallGetTurtle _ | CallUpdateStatus _ _ _ => true
  | _ => false
  end.

(** The registry calls of a trace, in order. *)
Definition registry_calls (t : list event) : list event :=
  List.filter is_registry_call t.

(** The registry operations that change a device record: deleting it and
    updating its status. [getTurtle] is the lookup that hands out the handle
    the update is then made on. *)
Definition is_mutation (e : event) : bool :=
  match e with
  | CallDeleteTurtle _ | CallUpdateStatus _ _ _ => true
  | _ => false
  end.

Definition mutations (t : list event) : nat :=
  length (List.filter is_mutation t).

Definition is_warning (e : event) : bool :=
  match e with
  | LogWarn _ => true
  | _ => false
  end.

(** The elements of [message.inventory] in the store [h], when it is an
    array. *)
Definition inventory_of (h : gmap loc obj) (message : value) : option (list value) :=
  match message with
  | VRef l =>
      match props_of (obj_at h l) !! "inventory" with
      | Some (VRef li) =>
          match h !! li with
          | Some (Arr es _) => Some es
          | _ => None
          end
      | _ => None
      end
  | _ => None
  end.

(** The arguments of the [updateStatus] calls of a trace, each with the
    store it was made on. *)
Definition update_calls (t : list event) : list (string * value * gmap loc obj) :=
  omap (fun e => match e with
                 | CallUpdateStatus id m h => Some (id, m, h)
                 | _ => None
                 end) t.

(** A value whose [stack] can be read: anything but [undefined] and
    [null]. *)
Definition readable (e : value) : bool :=
  match e with
  | VUndefined | VNull => false
  | _ => true
  end.

(** [err.stack] for a value whose properties can be read. *)
Definition stack_of (h : gmap loc obj) (e : value) : value :=
  match e with
  | VRef l => default VUndefined (props_of (obj_at h l) !! "stack")
  | _ => VUndefined
  end.

(** The identifier a registry call is made for. *)
Definition call_target (e : event) : option string :=
  match e with
  | CallDeleteTurtle id | CallGetTurtle id | CallUpdateStatus id _ _ => Some id
  | _ => None
  end.

(** The first store is kept by the second: every object of the first is
    still there, as it was. *)
Definition extends (h h' : gmap loc obj) : Prop :=
  forall l, l ∈ dom h -> h' !! l = h !! l.

(** A slot entry that is an array of the store. *)
Definition is_array_entry (h : gmap loc obj) (v : value) : Prop :=
  exists r es ps, v = VRef r /\ h !! r = Some (Arr es ps).

(** In the words of the specification: [inv'] is [slots] with every entry
    that is an array replaced by [null] and every other entry left as it
    is. *)
Definition arrays_nulled (h : gmap loc obj) (slots inv' : list value) : Prop :=
  length inv' = length slots /\
  forall i v, slots !! i = Some v ->
    (is_array_entry h v -> inv' !! i = Some VNull) /\
    (~ is_array_entry h v -> inv' !! i = Some v).

(** ** Sample data *)

(** A turtle whose update succeeds, and a registry that always has one. *)
Definition steady_turtle : Turtle :=
  {| updateStatus := fun _ _ => Returns (Promise Fulfils) |}.

Definition steady_manager : TurtleManager :=
  {| deleteTurtle := fun _ => Returns Plain;
     getTurtle := fun _ => Returns (Some steady_turtle) |}.

(** A registry whose calls all throw [e]. *)
Definition throwing_manager (e : value) : TurtleManager :=
  {| deleteTurtle := fun _ => Throws e;
     getTurtle := fun _ => Throws e |}.

(** A registry whose promises all reject with [e]. *)
Definition rejecting_manager (e : value) : TurtleManager :=
  {| deleteTurtle := fun _ => Returns (Promise (RejectsWith e));
     getTurtle := fun _ =>
       Returns (Some {| updateStatus := fun _ _ => Returns (Promise (RejectsWith e)) |}) |}.

(** The store holding the payload [{ online: false, inventory: [ [1,2] ] }]
    at location 1. *)
Definition offline_store : gmap loc obj :=
  <[1%positive := Obj (<["online" := VBool false]> (<["inventory" := VRef 2]> ∅))]>
  (<[2%positive := Arr [VRef 3] ∅]>
  (<[3%positive := Arr [VNumber 1; VNumber 2] ∅]> ∅)).

(** The store holding the payload
    [{ online, inventory: [ {name:"axe"}, [1,2], {name:"pick"} ] }] at
    location 1. *)
Definition axe_store (online : value) : gmap loc obj :=
  <[1%positive := Obj (<["online" := online]> (<["inventory" := VRef 2]> ∅))]>
  (<[2%positive := Arr [VRef 3; VRef 4; VRef 5] ∅]>
  (<[3%positive := Obj (<["name" := VString "axe"]> ∅)]>
  (<[4%positive := Arr [VNumber 1; VNumber 2] ∅]>
  (<[5%positive := Obj (<["name" := VString "pick"]> ∅)]> ∅)))).

(** ** The life cycle: [run] and [stop] *)

(** [bowline]'s [MQTTWrapper], the transport, an arbitrary collaborator:
    each method may return, throw, or hand back a promise that fulfils,
    rejects or never settles; [onOffline] is the promise the wrapper keeps
    for the end of the connection. [subscribe] takes the topic filter; its
    second argument is always [this.statusHandler.bind(this)]. *)
Record MQTTWrapper : Type := {
  connect : string -> call_outcome returned;
  subscribe : string -> call_outcome returned;
  disconnect : call_outcome returned;
  onOffline : returned
}.

(** What [run] and [stop] do that can be seen from outside, in order. *)
Inductive lifecycle_event : Type :=
| LogInfo (msg : string)
| CallConnect (url : string)
| CallSubscribe (filter : string)
| CallDisconnect.

(** The monad of [run] and [stop]: the log of the life cycle, and the
    completions of the handler's monad. *)
Definition L (A : Type) : Type :=
  list lifecycle_event -> completion A * list lifecycle_event.

Global Instance L_ret : MRet L := fun A a t => (Normal a, t).

Global Instance L_bind : MBind L := fun A B f m t =>
  match m t with
  | (Normal a, t') => f a t'
  | (Abrupt e, t') => (Abrupt e, t')
  | (Blocked, t') => (Blocked, t')
  end.

Definition note (e : lifecycle_event) : L unit := fun t => (Normal tt, t ++ [e]).

(** A call into the transport: it is made, and then returns or throws. *)
Definition call {A} (e : lifecycle_event) (c : call_outcome A) : L A := fun t =>
  match c with
  | Returns a => (Normal a, t ++ [e])
  | Throws x => (Abrupt x, t ++ [e])
  end.

(** [await r] in the life cycle. *)
Definition wait (r : returned) : L unit := fun t =>
  match r with
  | Plain | Promise Fulfils => (Normal tt, t)
  | Promise (RejectsWith e) => (Abrupt e, t)
  | Promise NeverSettles => (Blocked, t)
  end.

(** [async run ()], lines 38-47. *)
Definition run_body (this : Client) (client : MQTTWrapper) : L unit :=
  note (LogInfo "Connecting to MQTT server");;
  connected ← call (CallConnect (server this)) (connect client (server this));
  wait connected;;
  note (LogInfo "Registering topic handlers");;
  subscribed ← call (CallSubscribe (subscription this))
                    (subscribe client (subscription this));
  wait subscribed;;
  wait (onOffline client);;
  note (LogInfo "Shut down MQTT client").

Definition run (this : Client) (client : MQTTWrapper) : settlement * list lifecycle_event :=
  let (c, t) := run_body this client [] in (settle c, t).

(** How a value of the array given to [Promise.all] ends. *)
Definition settlement_of (r : returned) : settlement :=
  match r with
  | Plain => Fulfils
  | Promise s => s
  end.

(** [Promise.all([a, b])]: fulfilled when both are, rejected as soon as one
    rejects, pending otherwise. When both reject, the reason is that of the
    one that rejects first, which is for the scheduler to say:
    [first_wins] tells whether it is [a]. *)
Definition promise_all (first_wins : bool) (a b : returned) : settlement :=
  match settlement_of a, settlement_of b with
  | RejectsWith e1, RejectsWith e2 => RejectsWith (if first_wins then e1 else e2)
  | RejectsWith e1, _ => RejectsWith e1
  | _, RejectsWith e2 => RejectsWith e2
  | Fulfils, Fulfils => Fulfils
  | _, _ => NeverSettles
  end.

(** [async stop ()], lines 53-60: [disconnect()] is called while the array
    is built, then both promises are awaited together. *)
Definition stop_body (first_wins : bool) (client : MQTTWrapper) : L unit :=
  note (LogInfo "Stopping client");;
  disconnected ← call CallDisconnect (disconnect client);
  wait (Promise (promise_all first_wins disconnected (onOffline client)));;
  note (LogInfo "Client stopped").

Definition stop (first_wins : bool) (client : MQTTWrapper) : settlement * list lifecycle_event :=
  let (c, t) := stop_body first_wins client [] in (settle c, t).

(** ** More ways to read a run *)

(** The error object the runtime makes for a [TypeError] with message
    [msg]. *)
Definition error_object (msg : string) : obj :=
  Obj (<["name" := VString "TypeError"]>
       (<["message" := VString msg]>
       (<["stack" := VString ("TypeError: " +:+ msg)]> ∅))).

(** A payload that is neither [undefined], [null] nor an object: a
    boolean, a number or a string. *)
Definition is_primitive (v : value) : bool :=
  match v with
  | VBool _ | VNumber _ | VNaN | VString _ => true
  | _ => false
  end.

(** [v] is no array the handler can [map]: any value but a reference to an
    array that has no [map] property of its own. *)
Definition not_mappable (h : gmap loc obj) (v : value) : Prop :=
  forall l es ps, v = VRef l -> h !! l = Some (Arr es ps) -> is_Some (ps !! "map").

(** Every object of [h] other than the one at [l] is in [h'] as it was. *)
Definition kept_except (l : loc) (h h' : gmap loc obj) : Prop :=
  forall r, r ∈ dom h -> r <> l -> h' !! r = h !! r.

(** Every slot that is a reference points into the store. *)
Definition slots_closed (h : gmap loc obj) (slots : list value) : Prop :=
  forall r, VRef r ∈ slots -> r ∈ dom h.

(** The run from the forwarding statement on, on the store [h1] the
    sanitizing statement has left: line 86 inside the [try], with its
    [catch]. *)
Definition forward_run (this : Client) (id : string) (message : value)
    (topic : string) (h1 : gmap loc obj) : settlement * world :=
  let (c, w) := try_catch (forward_status this id message) warn_failure
                  (World h1 [LogVerbose id message topic] []) in
  (settle c, w).


(** In the run of the handler on [message], [topic] and [h], the
    registry's get-or-create or update for [id] has failed with [e]:
    [getTurtle] was called and threw [e]; or [updateStatus], called with
    [message] on the store of the run's update call, threw [e] or returned
    a promise that rejects with [e]. *)
Definition fails_in_run (this : Client) (message : value) (topic : string)
    (h : gmap loc obj) (id : string) (e : value) : Prop :=
  (CallGetTurtle id ∈ trace (statusHandler this message topic h).2 /\
   getTurtle (turtles this) id = Throws e) \/
  exists t h1,
    getTurtle (turtles this) id = Returns (Some t) /\
    update_calls (trace (statusHandler this message topic h).2)
      = [(id, message, h1)] /\
    (updateStatus t message h1 = Throws e \/
     updateStatus t message h1 = Returns (Promise (RejectsWith e))).

(** A trace with no warning, or with one warning, at its end. *)
Definition warning_only_last (t : list event) : Prop :=
  List.filter is_warning t = [] \/
  exists pre s, t = pre ++ [LogWarn s] /\ List.filter is_warning pre = [].

(** A call into the transport that goes well: it returns, and what it
    returns, awaited, is fulfilled. *)
Definition succeeds (c : call_outcome returned) : Prop :=
  exists r, c = Returns r /\ settlement_of r = Fulfils.

(** A call into the transport that fails with [e]: it throws [e], or the
    promise it returns rejects with [e]. *)
Definition call_fails (c : call_outcome returned) (e : value) : Prop :=
  c = Throws e \/ c = Returns (Promise (RejectsWith e)).

(** The store holding the payload [{ inventory: [ [1,2] ] }], with no
    [online] at all, at location 1. *)
Definition bare_store : gmap loc obj :=
  <[1%positive := Obj (<["inventory" := VRef 2]> ∅)]>
  (<[2%positive := Arr [VRef 3] ∅]>
  (<[3%positive := Arr [VNumber 1; VNumber 2] ∅]> ∅)).

(** A transport on which everything succeeds, the connection ending at
    some point. *)
Definition steady_wrapper : MQTTWrapper :=
  {| connect := fun _ => Returns (Promise Fulfils);
     subscribe := fun _ => Returns (Promise Fulfils);
     disconnect := Returns (Promise Fulfils);
     onOffline := Promise Fulfils |}.

(** A transport whose broker cannot be reached: [connect] rejects with
    [e]. *)
Definition unreachable_wrapper (e : value) : MQTTWrapper :=
  {| connect := fun _ => Returns (Promise (RejectsWith e));
     subscribe := fun _ => Returns (Promise Fulfils);
     disconnect := Returns (Promise Fulfils);
     onOffline := Promise NeverSettles |}.

(** A transport whose [disconnect] rejects with [e] while the connection
    never goes offline. *)
Definition stuck_wrapper (e : value) : MQTTWrapper :=
  {| connect := fun _ => Returns (Promise Fulfils);
     subscribe := fun _ => Returns (Promise Fulfils);
     disconnect := Returns (Promise (RejectsWith e));
     onOffline := Promise NeverSettles |}.

(** A registry whose update throws the string [boom] on one store only,
    that of the payload [{ online: false, inventory: [ [1,2] ] }], and
    succeeds on every other. *)
Definition picky_manager : TurtleManager :=
  {| deleteTurtle := fun _ => Returns Plain;
     getTurtle := fun _ =>
       Returns (Some {| updateStatus := fun _ h =>
                          if decide (h = offline_store)
                          then Throws (VString "boom")
                          else Returns Plain |}) |}.

(** A turtle whose update never completes. *)
Definition silent_manager : TurtleManager :=
  {| deleteTurtle := fun _ => Returns (Promise NeverSettles);
     getTurtle := fun _ =>
       Returns (Some {| updateStatus := fun _ _ => Returns (Promise NeverSettles) |}) |}.

(** The store holding the payload [{ online: true, inventory: "axe" }] at
    location 1. *)
Definition malformed_store : gmap loc obj :=
  <[1%positive := Obj (<["online" := VBool true]>
                      (<["inventory" := VString "axe"]> ∅))]> ∅.

(** ** Strings *)

Section strings.

Lemma app_cons (c : ascii) (s t : string) :
  String c s +:+ t = String c (s +:+ t).
Proof. reflexivity. Qed.

Lemma app_empty_l (s : string) : EmptyString +:+ s = s.
Proof. reflexivity. Qed.

Lemma app_empty_r (s : string) : s +:+ EmptyString = s.
Proof. induction s as [|c s IH]; [reflexivity|]. by rewrite app_cons, IH. Qed.

Lemma app_assoc_s (s t u : string) : (s +:+ t) +:+ u = s +:+ (t +:+ u).
Proof.
  induction s as [|c s IH]; [reflexivity|].
  by rewrite !app_cons, IH.
Qed.

Lemma app_snoc (acc : string) (c : ascii) (s : string) :
  (acc +:+ String c EmptyString) +:+ s = acc +:+ String c s.
Proof. by rewrite app_assoc_s. Qed.

Lemma length_app_s (s t : string) :
  String.length (s +:+ t) = (String.length s + String.length t)%nat.
Proof.
  induction s as [|c s IH]; [reflexivity|].
  rewrite app_cons. cbn [String.length]. by rewrite IH.
Qed.

Lemma app_inv_tail_s (s s' t : string) :
  s +:+ t = s' +:+ t -> s = s'.
Proof.
  revert s'. induction s as [|c s IH]; intros [|c' s'] H.
  - reflexivity.
  - apply (f_equal String.length) in H.
    rewrite app_empty_l, app_cons in H. cbn [String.length] in H.
    rewrite length_app_s in H. lia.
  - apply (f_equal String.length) in H.
    rewrite app_empty_l, app_cons in H. cbn [String.length] in H.
    rewrite length_app_s in H. lia.
  - rewrite !app_cons in H. injection H as -> H. f_equal. by apply IH.
Qed.

End strings.

(** ** The topic pattern, characterised *)

Section topic_pattern.
Import Topic.

Lemma status_end_eq (rest : string) :
  status_end rest = true <-> rest = "/status".
Proof. apply String.eqb_eq. Qed.

Lemma not_slash_false (c : ascii) :
  not_slash c = false <-> c = "/"%char.
Proof.
  unfold not_slash. rewrite negb_false_iff. apply Stdlib.Strings.Ascii.eqb_eq.
Qed.

(** An attempt succeeds exactly on a non-empty segment followed by
    [/status] and nothing else, and captures the segment. *)
Lemma attempt_Some (s acc r : string) :
  attempt acc s = Some r <->
  exists seg, seg <> EmptyString /\ slash_free seg = true /\
              s = seg +:+ "/status" /\ r = acc +:+ seg.
Proof.
  revert acc r. induction s as [|c rest IH]; intros acc r; cbn [attempt].
  - split; [discriminate|]. intros ([|d seg] & Hne & _ & Hs & _); [done|].
    rewrite app_cons in Hs. discriminate.
  - destruct (not_slash c) eqn:Hc.
    + destruct (attempt (acc +:+ String c EmptyString) rest) as [id|] eqn:Hrec.
      * apply IH in Hrec as (seg & Hne & Hsf & -> & ->). split.
        -- intros [= <-]. exists (String c seg). cbn [slash_free].
           rewrite Hc, Hsf, app_snoc. done.
        -- intros ([|d seg'] & Hne' & _ & Hs & ->); [done|].
           rewrite app_cons in Hs. injection Hs as <- Hs.
           apply app_inv_tail_s in Hs as ->. by rewrite app_snoc.
      * destruct (status_end rest) eqn:Hend.
        -- apply status_end_eq in Hend as ->. split.
           ++ intros [= <-]. exists (String c EmptyString). cbn [slash_free].
              by rewrite Hc.
           ++ intros ([|d seg] & Hne' & _ & Hs & ->); [done|].
              rewrite app_cons in Hs. injection Hs as <- Hs.
              change "/status" with (EmptyString +:+ "/status") in Hs at 1.
              by apply app_inv_tail_s in Hs as <-.
        -- split; [discriminate|].
           intros ([|d seg] & Hne' & Hsf & Hs & ->); [done|].
           rewrite app_cons in Hs. injection Hs as <- Hs.
           cbn [slash_free] in Hsf. apply andb_true_iff in Hsf as [_ Hsf].
           destruct seg as [|e seg].
           { rewrite app_empty_l in Hs. subst rest. done. }
           assert (attempt (acc +:+ String c EmptyString) rest
                   = Some ((acc +:+ String c EmptyString) +:+ String e seg)) as Hyes
             by (apply IH; exists (String e seg); split_and!; done).
           congruence.
    + split; [discriminate|].
      intros ([|d seg] & Hne' & Hsf & Hs & _); [done|].
      rewrite app_cons in Hs. injection Hs as <- _.
      cbn [slash_free] in Hsf. apply andb_true_iff in Hsf as [Hsf _].
      congruence.
Qed.

Lemma slash_free_app (s t : string) :
  slash_free (s +:+ t) = slash_free s && slash_free t.
Proof.
  induction s as [|c s IH]; [reflexivity|].
  rewrite app_cons. cbn [slash_free]. by rewrite IH, andb_assoc.
Qed.

Lemma attempt_fresh (id : string) :
  id <> EmptyString -> slash_free id = true ->
  attempt EmptyString (id +:+ "/status") = Some id.
Proof. intros Hne Hsf. apply attempt_Some. by exists id. Qed.

(** No attempt succeeds while a whole [/<id>] is still ahead of the
    [/status] at the end. *)
Lemma attempt_before_segment (s id : string) :
  id <> EmptyString ->
  attempt EmptyString (s +:+ "/" +:+ id +:+ "/status") = None.
Proof.
  intros Hne.
  destruct (attempt _ _) as [r|] eqn:Hr; [|reflexivity]. exfalso.
  apply attempt_Some in Hr as (seg & _ & Hsf & Hs & _).
  replace (s +:+ "/" +:+ id +:+ "/status")
    with ((s +:+ "/" +:+ id) +:+ "/status") in Hs
    by (by rewrite !app_assoc_s).
  apply app_inv_tail_s in Hs as <-.
  rewrite !slash_free_app in Hsf. cbn in Hsf.
  by rewrite andb_false_r in Hsf.
Qed.

(** The identifier of a status topic is found, whatever the base. *)
Lemma turtleIdMatch_status_topic (base id : string) :
  id <> EmptyString -> slash_free id = true ->
  turtleIdMatch (status_topic base id) = Some id.
Proof.
  intros Hne Hsf. unfold status_topic.
  induction base as [|c base IH].
  - rewrite app_empty_l. change ("/" +:+ id +:+ "/status")
      with (String "/" (id +:+ "/status")).
    cbn [turtleIdMatch attempt].
    change (not_slash "/") with false. cbn match.
    destruct id as [|d id]; [done|]. rewrite app_cons.
    cbn [turtleIdMatch]. rewrite <- app_cons. by rewrite attempt_fresh.
  - pose proof (attempt_before_segment (String c base) id Hne) as Hno.
    rewrite app_cons in Hno |- *. cbn [turtleIdMatch]. by rewrite Hno.
Qed.

(** What a match means: the topic ends in the captured segment and
    [/status], and the segment starts the topic or follows a ['/']. *)
Lemma turtleIdMatch_Some (topic id : string) :
  turtleIdMatch topic = Some id ->
  id <> EmptyString /\ slash_free id = true /\
  exists pre, topic = pre +:+ id +:+ "/status".
Proof.
  induction topic as [|c rest IH]; cbn [turtleIdMatch].
  - cbn. discriminate.
  - destruct (attempt EmptyString (String c rest)) as [r|] eqn:Hr.
    + intros [= ->]. apply attempt_Some in Hr as (seg & Hne & Hsf & Hs & ->).
      rewrite app_empty_l. split_and!; [done..|]. by exists EmptyString.
    + intros H. destruct (IH H) as (Hne & Hsf & pre & ->).
      split_and!; [done..|]. by exists (String c pre).
Qed.

(** No match means: the topic does not end in a non-empty segment
    followed by [/status]. *)
Lemma turtleIdMatch_None (topic : string) :
  turtleIdMatch topic = None <->
  forall pre id, id <> EmptyString -> slash_free id = true ->
                 topic <> pre +:+ id +:+ "/status".
Proof.
  induction topic as [|c rest IH]; cbn [turtleIdMatch].
  - split; [|reflexivity]. intros _ pre id Hne _ H.
    apply (f_equal String.length) in H. rewrite !length_app_s in H.
    cbn in H. lia.
  - destruct (attempt EmptyString (String c rest)) as [r|] eqn:Hr.
    + split; [discriminate|]. intros H. exfalso.
      apply attempt_Some in Hr as (seg & Hne & Hsf & Hs & _).
      by apply (H EmptyString seg).
    + rewrite IH. split.
      * intros H [|d pre] id Hne Hsf E.
        -- rewrite app_empty_l in E. rewrite E, attempt_fresh in Hr; done.
        -- rewrite app_cons in E. injection E as _ E. by apply (H pre id).
      * intros H pre id Hne Hsf ->. by apply (H (String c pre) id).
Qed.

End topic_pattern.

(** ** Running the handler *)

(** Unfold the monad and the statements of the handler. *)
Ltac munfold :=
  unfold statusHandler, statusHandler_body, delete_record, sanitize_inventory,
    forward_status, warn_failure in *;
  unfold mbind, M_bind, mret, M_ret, try_catch, emit, get_prop, set_prop,
    call_map, type_error, alloc, store, throw, block, get_heap, outcome,
    await, drop in *;
  unfold mbind, M_bind, mret, M_ret in *.

(** Go through the cases of every [match] on a variable or an opaque
    term. *)
Ltac crunch :=
  repeat (cbn -[fresh String.append];
    match goal with
    | |- context [match ?x with _ => _ end] =>
        lazymatch x with
        | context [match _ with _ => _ end] => fail
        | _ => destruct x eqn:?
        end
    end); cbn -[fresh String.append].

(** ** The store during a run *)

Section store_facts.

Lemma extends_refl (h : gmap loc obj) : extends h h.
Proof. by intros l _. Qed.

(** Allocation leaves every object of the store where it is. *)
Lemma extends_alloc (h : gmap loc obj) (o : obj) :
  extends h (<[fresh (dom h) := o]> h).
Proof.
  intros l Hl. apply lookup_insert_ne. intros <-. by apply is_fresh in Hl.
Qed.

Lemma fresh_ne (h : gmap loc obj) (l : loc) (o : obj) :
  h !! l = Some o -> fresh (dom h) <> l.
Proof. intros Hl E. apply (is_fresh (dom h)). rewrite E. by eapply elem_of_dom_2. Qed.

(** [Array.isArray] on a slot, in the words of the store. *)
Lemma isArray_true (h : gmap loc obj) (v : value) :
  isArray h v = true <-> exists l es ps, v = VRef l /\ h !! l = Some (Arr es ps).
Proof.
  split.
  - destruct v as [| | | | | |l]; try discriminate. cbn.
    destruct (h !! l) as [[|es ps]|] eqn:E; try discriminate. eauto.
  - intros (l & es & ps & -> & E). cbn. by rewrite E.
Qed.

Lemma props_with_props (o : obj) (ps : gmap string value) :
  props_of (with_props o ps) = ps.
Proof. by destruct o. Qed.

(** What can be read of the inventory in a store can be read in every
    store that keeps it. *)
Lemma inventory_of_extends (h h' : gmap loc obj) (message : value) (inv : list value) :
  extends h h' ->
  inventory_of h message = Some inv -> inventory_of h' message = Some inv.
Proof.
  intros Hext. destruct message as [| | | | | |l]; try discriminate.
  unfold inventory_of, obj_at.
  destruct (h !! l) as [o|] eqn:Hl; [|cbn; by rewrite lookup_empty].
  rewrite (Hext l) by by eapply elem_of_dom_2. rewrite Hl. cbn.
  destruct (props_of o !! "inventory") as [[| | | | | |li]|]; try discriminate.
  destruct (h !! li) as [oi|] eqn:Hli; [|discriminate].
  rewrite (Hext li) by by eapply elem_of_dom_2. by rewrite Hli.
Qed.

(** The store the sanitizing statement leaves: the message object with
    its [inventory] pointing at the new array of sanitized slots, and
    every other object as before. *)
Lemma sanitized_store (h : gmap loc obj) (l : loc) (o : obj) (inv : list value) :
  h !! l = Some o ->
  let l' := fresh (dom h) in
  let h1 := <[l := with_props o (<["inventory" := VRef l']> (props_of o))]>
              (<[l' := Arr inv ∅]> h) in
  h !! l' = None /\
  h1 !! l = Some (with_props o (<["inventory" := VRef l']> (props_of o))) /\
  h1 !! l' = Some (Arr inv ∅) /\
  inventory_of h1 (VRef l) = Some inv /\
  (forall r, r <> l -> r ∈ dom h -> h1 !! r = h !! r).
Proof.
  intros Hl l' h1.
  assert (l' <> l) as Hne by by eapply fresh_ne.
  assert (h !! l' = None) as Hfresh by (apply not_elem_of_dom, is_fresh).
  assert (h1 !! l' = Some (Arr inv ∅)) as Hl'.
  { unfold h1. rewrite lookup_insert_ne by done. apply lookup_insert_eq. }
  split_and!; [done | apply lookup_insert_eq | done | |].
  - unfold inventory_of, obj_at. unfold h1 at 1. rewrite lookup_insert_eq. cbn.
    rewrite props_with_props, lookup_insert_eq. by rewrite Hl'.
  - intros r Hr Hdom. unfold h1. rewrite lookup_insert_ne by done.
    apply lookup_insert_ne. intros <-. by apply not_elem_of_dom in Hfresh.
Qed.

(** The model's [map] callback does what the specification says. *)
Lemma arrays_nulled_sanitize (h : gmap loc obj) (slots : list value) :
  arrays_nulled h slots (sanitize_slot h <$> slots).
Proof.
  split; [apply length_fmap|]. intros i v Hi.
  rewrite list_lookup_fmap, Hi. cbn. unfold sanitize_slot. split.
  - intros Harr%isArray_true. by rewrite Harr.
  - intros Hno. destruct (isArray h v) eqn:E; [|done].
    by apply isArray_true in E.
Qed.

End store_facts.

Section sanitize_runs.

(** [message.online] falsy: the statement does nothing. *)
Lemma sanitize_skip (l : loc) (w : world) :
  to_boolean (default VUndefined (props_of (obj_at (heap w) l) !! "online")) = false ->
  sanitize_inventory (VRef l) w = (Normal tt, w).
Proof. intros Hoff. munfold. cbn. by rewrite Hoff. Qed.

(** [message.online] truthy and [message.inventory] an array: a new array
    holds the sanitized slots, and the [inventory] property of the object
    [message] refers to now points at it. *)
Lemma sanitize_array (l li : loc) (o : obj) (online : value)
    (slots : list value) (w : world) :
  heap w !! l = Some o ->
  props_of o !! "online" = Some online ->
  to_boolean online = true ->
  props_of o !! "inventory" = Some (VRef li) ->
  heap w !! li = Some (Arr slots ∅) ->
  sanitize_inventory (VRef l) w =
    let l' := fresh (dom (heap w)) in
    (Normal tt,
     World (<[l := with_props o (<["inventory" := VRef l']> (props_of o))]>
              (<[l' := Arr (sanitize_slot (heap w) <$> slots) ∅]> (heap w)))
           (trace w) (unhandled w)).
Proof.
  intros Hl Hon Htrue Hinv Hli. munfold. cbn -[fresh].
  unfold obj_at.
  repeat (first [rewrite Hl | rewrite Hon | rewrite Htrue | rewrite Hinv
                | rewrite Hli]; cbn -[fresh]).
  rewrite lookup_empty. cbn -[fresh].
  rewrite lookup_insert_ne by by eapply fresh_ne.
  by rewrite Hl.
Qed.

(** The sanitizing statement ends normally or with a [TypeError] of the
    runtime; it logs nothing and calls nothing. *)
Lemma sanitize_outcome (message : value) (w : world) :
  exists h1,
    sanitize_inventory message w = (Normal tt, World h1 (trace w) (unhandled w)) \/
    exists l, sanitize_inventory message w
              = (Abrupt (VRef l), World h1 (trace w) (unhandled w)).
Proof.
  destruct w as [h t u].
  destruct message; munfold; crunch; eauto.
Qed.

End sanitize_runs.

Section handler_runs.
Context (this : Client).

(** A topic the pattern does not match: one error entry in the log, and
    nothing else happens. *)
Lemma run_unmatched (message : value) (topic : string) (h : gmap loc obj) :
  Topic.turtleIdMatch topic = None ->
  statusHandler this message topic h = (Fulfils, World h [LogError topic] []).
Proof. intros Hno. unfold statusHandler, statusHandler_body. by rewrite Hno. Qed.

(** The [catch] block on a value whose [stack] can be read: a warning,
    and the exception is gone. *)
Lemma warn_failure_readable (e : value) (w : world) :
  readable e = true ->
  warn_failure e w =
    (Normal tt, World (heap w) (trace w ++ [LogWarn (stack_of (heap w) e)]) (unhandled w)).
Proof. destruct e; try discriminate; intros _; reflexivity. Qed.

(** On [undefined] and [null] the block itself throws: reading [stack]
    is a [TypeError]. *)
Lemma warn_failure_unreadable (e : value) (w : world) :
  readable e = false ->
  exists l o, warn_failure e w =
    (Abrupt (VRef l), World (<[l := o]> (heap w)) (trace w) (unhandled w)).
Proof. destruct e; try discriminate; intros _; munfold; cbn; eauto. Qed.

(** The null payload: the run, for each thing [deleteTurtle] can do. *)
Lemma run_delete (topic id : string) (h : gmap loc obj) :
  Topic.turtleIdMatch topic = Some id ->
  statusHandler this VNull topic h =
    let t := [LogVerbose id VNull topic; CallDeleteTurtle id] in
    match deleteTurtle (turtles this) id with
    | Returns (Promise (RejectsWith e)) => (Fulfils, World h t [e])
    | Returns _ => (Fulfils, World h t [])
    | Throws e =>
        let (c, w) := warn_failure e (World h t []) in (settle c, w)
    end.
Proof.
  intros Hid. unfold statusHandler, statusHandler_body. rewrite Hid.
  unfold delete_record. munfold. cbn.
  destruct (deleteTurtle (turtles this) id) as [[|[]]|e]; reflexivity.
Qed.

(** A run on a matched topic starts with the verbose entry that names
    the identifier; its registry calls are none, one [deleteTurtle], one
    [getTurtle], or one [getTurtle] and then one [updateStatus] of the
    very message, all for that identifier. *)
Lemma run_matched_shape (message : value) (topic id : string) (h : gmap loc obj) :
  Topic.turtleIdMatch topic = Some id ->
  exists rest,
    trace (statusHandler this message topic h).2
      = LogVerbose id message topic :: rest /\
    (registry_calls rest = [] \/
     registry_calls rest = [CallDeleteTurtle id] \/
     registry_calls rest = [CallGetTurtle id] \/
     exists h', registry_calls rest
                = [CallGetTurtle id; CallUpdateStatus id message h']).
Proof.
  intros Hid. unfold statusHandler, statusHandler_body. rewrite Hid.
  destruct message; munfold; crunch; eexists; (split; [reflexivity|]); cbn;
    solve [ by left | right; by left | right; right; by left
          | right; right; right; eauto ].
Qed.

(** A payload that is not [null], once the sanitizing statement has run
    and left the store [h1]: whatever the registry does, [updateStatus] is
    called at most once, with the very [message] and on [h1], and the
    objects of [h1] are not touched afterwards. *)
Lemma run_forward (message : value) (topic id : string) (h h1 : gmap loc obj) :
  is_null message = false ->
  Topic.turtleIdMatch topic = Some id ->
  sanitize_inventory message (World h [LogVerbose id message topic] []) =
    (Normal tt, World h1 [LogVerbose id message topic] []) ->
  let w := (statusHandler this message topic h).2 in
  extends h1 (heap w) /\
  (forall c, c ∈ update_calls (trace w) -> c = (id, message, h1)) /\
  (forall t, getTurtle (turtles this) id = Returns (Some t) ->
             update_calls (trace w) = [(id, message, h1)]).
Proof.
  intros Hnull Hid Hsan. cbn zeta.
  unfold statusHandler, statusHandler_body. rewrite Hid, Hnull.
  unfold forward_status, warn_failure.
  unfold mbind, M_bind, mret, M_ret, try_catch, emit, get_prop, type_error,
    alloc, throw, block, get_heap, outcome, await.
  unfold mbind, M_bind, mret, M_ret.
  cbn -[fresh String.append sanitize_inventory]. rewrite Hsan.
  crunch; split_and!;
    solve [ apply extends_refl | apply extends_alloc
          | by intros c Hc%list_elem_of_singleton
          | by intros c Hc%elem_of_nil
          | done ].
Qed.

(** A payload that is not [null] on a matched topic: the [try] block is
    the sanitizing statement and then the forwarding one. *)
Lemma run_nonnull (message : value) (topic id : string) (h : gmap loc obj) :
  is_null message = false ->
  Topic.turtleIdMatch topic = Some id ->
  statusHandler this message topic h =
    let (c, w) :=
      try_catch (sanitize_inventory message;; forward_status this id message)
                warn_failure (World h [LogVerbose id message topic] []) in
    (settle c, w).
Proof.
  intros Hnull Hid. unfold statusHandler, statusHandler_body.
  by rewrite Hid, Hnull.
Qed.

(** The run on a payload object that is online (in the loose sense of
    JavaScript) with an array for inventory. *)
Lemma run_sanitized (topic id : string) (l li : loc) (o : obj) (online : value)
    (slots : list value) (h : gmap loc obj) :
  Topic.turtleIdMatch topic = Some id ->
  h !! l = Some o ->
  props_of o !! "online" = Some online ->
  to_boolean online = true ->
  props_of o !! "inventory" = Some (VRef li) ->
  h !! li = Some (Arr slots ∅) ->
  let l' := fresh (dom h) in
  let h1 := <[l := with_props o (<["inventory" := VRef l']> (props_of o))]>
              (<[l' := Arr (sanitize_slot h <$> slots) ∅]> h) in
  let w := (statusHandler this (VRef l) topic h).2 in
  extends h1 (heap w) /\
  (forall c, c ∈ update_calls (trace w) -> c = (id, VRef l, h1)) /\
  (forall t, getTurtle (turtles this) id = Returns (Some t) ->
             update_calls (trace w) = [(id, VRef l, h1)]).
Proof.
  intros Hid Hl Hon Htrue Hinv Hli. cbn zeta.
  apply run_forward; [done..|].
  by rewrite (sanitize_array l li o online slots).
Qed.

(** The run on a payload object that is not online. *)
Lemma run_offline (topic id : string) (l : loc) (o : obj) (online : value)
    (h : gmap loc obj) :
  Topic.turtleIdMatch topic = Some id ->
  h !! l = Some o ->
  props_of o !! "online" = Some online ->
  to_boolean online = false ->
  let w := (statusHandler this (VRef l) topic h).2 in
  extends h (heap w) /\
  (forall c, c ∈ update_calls (trace w) -> c = (id, VRef l, h)) /\
  (forall t, getTurtle (turtles this) id = Returns (Some t) ->
             update_calls (trace w) = [(id, VRef l, h)]).
Proof.
  intros Hid Hl Hon Hfalse. cbn zeta.
  apply run_forward; [done..|].
  apply sanitize_skip. unfold obj_at. cbn [heap]. rewrite Hl. cbn.
  by rewrite Hon.
Qed.

End handler_runs.

(** ** The properties of the status handler *)

Section claims.
Context (this : Client).

(** C1. For the topic [<base>/<id>/status] of a device [id] (a non-empty
    segment), under any base, the pattern captures exactly [id], the
    segment between the last two ['/'] before [status]; the handler logs
    the update under that identifier and makes every registry call of the
    run for it. *)
Theorem C1_identifier_is_last_segment
    (base id : string) (message : value) (h : gmap loc obj) :
  id <> EmptyString -> Topic.slash_free id = true ->
  Topic.turtleIdMatch (Topic.status_topic base id) = Some id /\
  (exists rest,
     trace (statusHandler this message (Topic.status_topic base id) h).2
       = LogVerbose id message (Topic.status_topic base id) :: rest) /\
  Forall (fun e => call_target e = Some id)
    (registry_calls
       (trace (statusHandler this message (Topic.status_topic base id) h).2)).
Proof.
  intros Hne Hsf.
  pose proof (turtleIdMatch_status_topic base id Hne Hsf) as Hid.
  destruct (run_matched_shape this message _ id h Hid) as (rest & -> & Hcalls).
  split_and!; [done | by exists rest |].
  change (registry_calls (LogVerbose id message (Topic.status_topic base id) :: rest))
    with (registry_calls rest).
  destruct Hcalls as [-> | [-> | [-> | [h' ->]]]]; repeat constructor.
Qed.

(** C2, as amended. A topic that does not end in a non-empty segment
    followed by [/status] is discarded: the handler logs the error, calls
    nothing on the registry, leaves the store alone and resolves. *)
Theorem C2_unmatched_topic_discarded
    (message : value) (topic : string) (h : gmap loc obj) :
  (forall pre id, id <> EmptyString -> Topic.slash_free id = true ->
                  topic <> pre +:+ id +:+ "/status") ->
  statusHandler this message topic h = (Fulfils, World h [LogError topic] []) /\
  registry_calls (trace (statusHandler this message topic h).2) = [].
Proof.
  intros Hno%turtleIdMatch_None. by rewrite run_unmatched.
Qed.

(** C5. On the payload [null] and the topic of a device [X], the registry
    is called once: [deleteTurtle(X)], and nothing else. *)
Theorem C5_null_payload_deletes_once (base X : string) (h : gmap loc obj) :
  X <> EmptyString -> Topic.slash_free X = true ->
  registry_calls
    (trace (statusHandler this VNull (Topic.status_topic base X) h).2)
    = [CallDeleteTurtle X].
Proof.
  intros Hne Hsf.
  rewrite (run_delete this _ X) by by apply turtleIdMatch_status_topic.
  cbn zeta. destruct (deleteTurtle (turtles this) X) as [[|[]]|e]; try reflexivity.
  destruct e; reflexivity.
Qed.

(** C7. One call of the handler makes at most one registry mutation, a
    delete or a status update, on any payload, topic and store and
    whatever the registry does. *)
Theorem C7_at_most_one_mutation
    (message : value) (topic : string) (h : gmap loc obj) :
  (mutations (trace (statusHandler this message topic h).2) <= 1)%nat.
Proof.
  destruct (Topic.turtleIdMatch topic) as [id|] eqn:Hid.
  - destruct (run_matched_shape this message topic id h Hid) as (rest & -> & Hcalls).
    assert (forall t, mutations t = mutations (registry_calls t)) as Hfilter.
    { intros t. unfold mutations, registry_calls.
      induction t as [|[] t IH]; cbn; by rewrite ?IH. }
    rewrite Hfilter.
    change (registry_calls (LogVerbose id message topic :: rest))
      with (registry_calls rest).
    destruct Hcalls as [-> | [-> | [-> | [h' ->]]]]; cbn; lia.
  - rewrite run_unmatched by done. cbn. lia.
Qed.

(** C8. When [deleteTurtle] returns a promise that rejects, the handler
    has not awaited it: the handler resolves, no warning is logged, and
    the reason of the rejection is left with nobody to handle it. *)
Theorem C8_delete_rejection_not_caught
    (base id : string) (h : gmap loc obj) (e : value) :
  id <> EmptyString -> Topic.slash_free id = true ->
  deleteTurtle (turtles this) id = Returns (Promise (RejectsWith e)) ->
  statusHandler this VNull (Topic.status_topic base id) h =
    (Fulfils,
     World h [LogVerbose id VNull (Topic.status_topic base id);
              CallDeleteTurtle id] [e]).
Proof.
  intros Hne Hsf Hrej.
  rewrite (run_delete this _ id) by by apply turtleIdMatch_status_topic.
  by rewrite Hrej.
Qed.

(** The other half of C8: an exception [deleteTurtle] throws while it is
    being called is caught; with a [stack] to read it ends as a warning
    and the handler resolves. *)
Lemma delete_throw_swallowed
    (base id : string) (h : gmap loc obj) (e : value) :
  id <> EmptyString -> Topic.slash_free id = true ->
  deleteTurtle (turtles this) id = Throws e ->
  readable e = true ->
  statusHandler this VNull (Topic.status_topic base id) h =
    (Fulfils,
     World h [LogVerbose id VNull (Topic.status_topic base id);
              CallDeleteTurtle id; LogWarn (stack_of h e)] []).
Proof.
  intros Hne Hsf Hthrow Hread.
  rewrite (run_delete this _ id) by by apply turtleIdMatch_status_topic.
  rewrite Hthrow. cbn zeta. by rewrite warn_failure_readable.
Qed.

(** C4. On a payload object whose [online] is [true], with an array of
    slots for inventory, the handler sanitizes the inventory and hands it
    to the registry's update: every update call of the run is made with
    the very payload, whose inventory then reads [null] for every slot
    that was an array and every other slot as it was; there is one such
    call when the registry hands out a turtle; the other objects of the
    store are as before. *)
Theorem C4_online_true_arrays_nulled
    (base id : string) (l li : loc) (o : obj)
    (slots : list value) (h : gmap loc obj) :
  id <> EmptyString -> Topic.slash_free id = true ->
  h !! l = Some o ->
  props_of o !! "online" = Some (VBool true) ->
  props_of o !! "inventory" = Some (VRef li) ->
  h !! li = Some (Arr slots ∅) ->
  exists h' inv',
    inventory_of h' (VRef l) = Some inv' /\
    arrays_nulled h slots inv' /\
    (forall r, r <> l -> r ∈ dom h -> h' !! r = h !! r) /\
    (forall c,
       c ∈ update_calls
             (trace (statusHandler this (VRef l) (Topic.status_topic base id) h).2) ->
       c = (id, VRef l, h')) /\
    (forall t, getTurtle (turtles this) id = Returns (Some t) ->
       update_calls
         (trace (statusHandler this (VRef l) (Topic.status_topic base id) h).2)
         = [(id, VRef l, h')]).
Proof.
  intros Hne Hsf Hl Hon Hinv Hli.
  pose proof (turtleIdMatch_status_topic base id Hne Hsf) as Hid.
  destruct (run_sanitized this _ id l li o _ slots h Hid Hl Hon eq_refl Hinv Hli)
    as (_ & Hall & Hcall).
  destruct (sanitized_store h l o (sanitize_slot h <$> slots) Hl)
    as (_ & _ & _ & Hread & Hframe).
  eexists _, _. split_and!.
  - exact Hread.
  - apply arrays_nulled_sanitize.
  - exact Hframe.
  - exact Hall.
  - exact Hcall.
Qed.

(** C6. On a payload object whose [online] is [false], nothing is
    substituted: every update call of the run is made with the very
    payload on the store as the handler received it, there is one such
    call when the registry hands out a turtle, and every object of the
    store is afterwards as it was. *)
Theorem C6_offline_inventory_untouched
    (base id : string) (l : loc) (o : obj) (h : gmap loc obj) :
  id <> EmptyString -> Topic.slash_free id = true ->
  h !! l = Some o ->
  props_of o !! "online" = Some (VBool false) ->
  (forall c,
     c ∈ update_calls
           (trace (statusHandler this (VRef l) (Topic.status_topic base id) h).2) ->
     c = (id, VRef l, h)) /\
  (forall t, getTurtle (turtles this) id = Returns (Some t) ->
     update_calls
       (trace (statusHandler this (VRef l) (Topic.status_topic base id) h).2)
       = [(id, VRef l, h)]) /\
  (forall inv, inventory_of h (VRef l) = Some inv ->
     inventory_of
       (heap (statusHandler this (VRef l) (Topic.status_topic base id) h).2)
       (VRef l) = Some inv) /\
  extends h (heap (statusHandler this (VRef l) (Topic.status_topic base id) h).2).
Proof.
  intros Hne Hsf Hl Hon.
  pose proof (turtleIdMatch_status_topic base id Hne Hsf) as Hid.
  destruct (run_offline this _ id l o _ h Hid Hl Hon eq_refl)
    as (Hext & Hall & Hone).
  split_and!; [done..| |done].
  intros inv. by apply inventory_of_extends.
Qed.

(** C9. The sanitizing is done on the caller's object: on a payload
    object with a truthy [online] and an array of slots for inventory,
    the object the handler was given has, when the handler is done, its
    [inventory] property pointing at a new array of the sanitized slots
    and its other properties as before. This same object is what
    [updateStatus] is given: when the registry hands out a turtle, the
    update is called, once, with the reference the handler received, on a
    store where the object is already in that state; and no update call
    of any run sees it otherwise. *)
Theorem C9_payload_mutated_in_place
    (base id : string) (l li : loc) (o : obj) (online : value)
    (slots : list value) (h : gmap loc obj) :
  id <> EmptyString -> Topic.slash_free id = true ->
  h !! l = Some o ->
  props_of o !! "online" = Some online ->
  to_boolean online = true ->
  props_of o !! "inventory" = Some (VRef li) ->
  h !! li = Some (Arr slots ∅) ->
  exists l' inv',
    arrays_nulled h slots inv' /\
    inventory_of h (VRef l) = Some slots /\
    h !! l' = None /\
    heap (statusHandler this (VRef l) (Topic.status_topic base id) h).2 !! l
      = Some (with_props o (<["inventory" := VRef l']> (props_of o))) /\
    heap (statusHandler this (VRef l) (Topic.status_topic base id) h).2 !! l'
      = Some (Arr inv' ∅) /\
    inventory_of
      (heap (statusHandler this (VRef l) (Topic.status_topic base id) h).2)
      (VRef l) = Some inv' /\
    (forall c,
       c ∈ update_calls
             (trace (statusHandler this (VRef l) (Topic.status_topic base id) h).2) ->
       c.1.2 = VRef l /\ inventory_of c.2 (VRef l) = Some inv') /\
    (forall t, getTurtle (turtles this) id = Returns (Some t) ->
       exists h',
         update_calls
           (trace (statusHandler this (VRef l) (Topic.status_topic base id) h).2)
           = [(id, VRef l, h')] /\
         h' !! l = Some (with_props o (<["inventory" := VRef l']> (props_of o))) /\
         h' !! l' = Some (Arr inv' ∅) /\
         inventory_of h' (VRef l) = Some inv').
Proof.
  intros Hne Hsf Hl Hon Htrue Hinv Hli.
  pose proof (turtleIdMatch_status_topic base id Hne Hsf) as Hid.
  destruct (run_sanitized this _ id l li o online slots h Hid Hl Hon Htrue Hinv Hli)
    as (Hext & Hall & Hone).
  destruct (sanitized_store h l o (sanitize_slot h <$> slots) Hl)
    as (Hfresh & Hl1 & Hl'1 & Hread & _).
  exists (fresh (dom h)), (sanitize_slot h <$> slots). split_and!.
  - apply arrays_nulled_sanitize.
  - unfold inventory_of, obj_at. rewrite Hl. cbn. by rewrite Hinv, Hli.
  - exact Hfresh.
  - rewrite Hext by by eapply elem_of_dom_2. exact Hl1.
  - rewrite Hext by by eapply elem_of_dom_2. exact Hl'1.
  - by eapply inventory_of_extends.
  - intros c ->%Hall. by split.
  - intros t Ht. eexists. split_and!; [by apply (Hone t) | done..].
Qed.

(** C10. The test before the sanitizing is JavaScript's truthiness, not
    equality with [true]: on a payload object whose [online] is any truthy
    value (a number other than 0, a non-empty string, ...), with an array
    of slots for inventory, the arrays among the slots are replaced by
    [null] before the update is called: every update call of the run
    receives the payload in that state, and there is one such call when
    the registry hands out a turtle. *)
Theorem C10_truthy_online_arrays_nulled
    (base id : string) (l li : loc) (o : obj) (online : value)
    (slots : list value) (h : gmap loc obj) :
  id <> EmptyString -> Topic.slash_free id = true ->
  h !! l = Some o ->
  props_of o !! "online" = Some online ->
  to_boolean online = true ->
  props_of o !! "inventory" = Some (VRef li) ->
  h !! li = Some (Arr slots ∅) ->
  exists h' inv',
    inventory_of h' (VRef l) = Some inv' /\
    arrays_nulled h slots inv' /\
    (forall c,
       c ∈ update_calls
             (trace (statusHandler this (VRef l) (Topic.status_topic base id) h).2) ->
       c = (id, VRef l, h')) /\
    (forall t, getTurtle (turtles this) id = Returns (Some t) ->
       update_calls
         (trace (statusHandler this (VRef l) (Topic.status_topic base id) h).2)
         = [(id, VRef l, h')]).
Proof.
  intros Hne Hsf Hl Hon Htrue Hinv Hli.
  pose proof (turtleIdMatch_status_topic base id Hne Hsf) as Hid.
  destruct (run_sanitized this _ id l li o online slots h Hid Hl Hon Htrue Hinv Hli)
    as (_ & Hall & Hcall).
  destruct (sanitized_store h l o (sanitize_slot h <$> slots) Hl)
    as (_ & _ & _ & Hread & _).
  eexists _, _. split_and!; [exact Hread | | exact Hall | exact Hcall].
  apply arrays_nulled_sanitize.
Qed.

End claims.

(** ** The properties at the inputs of the specification *)

Example turtleIdMatch_t42 :
  Topic.turtleIdMatch "quayos/turtles/t42/status" = Some "t42".
Proof. reflexivity. Qed.

Example turtleIdMatch_other :
  Topic.turtleIdMatch "other/topic" = None.
Proof. reflexivity. Qed.

Example turtleIdMatch_base_status :
  Topic.turtleIdMatch "quayos/turtles/status" = Some "turtles".
Proof. reflexivity. Qed.

Example default_baseTopic :
  subscription (new_Client steady_manager None) = "quayos/turtles/+/status".
Proof. reflexivity. Qed.

(** C1 at the topic [quayos/turtles/t42/status]. *)
Lemma C1_witness :
  Topic.turtleIdMatch (Topic.status_topic "quayos/turtles" "t42") = Some "t42" /\
  (exists rest,
     trace (statusHandler (new_Client steady_manager None) VNull
              (Topic.status_topic "quayos/turtles" "t42") ∅).2
       = LogVerbose "t42" VNull (Topic.status_topic "quayos/turtles" "t42") :: rest) /\
  Forall (fun e => call_target e = Some "t42")
    (registry_calls
       (trace (statusHandler (new_Client steady_manager None) VNull
                 (Topic.status_topic "quayos/turtles" "t42") ∅).2)).
Proof.
  apply (C1_identifier_is_last_segment (new_Client steady_manager None)
           "quayos/turtles" "t42" VNull ∅); [discriminate | reflexivity].
Defined.

(** C2 as the specification has it fails at its own example: the topic
    [quayos/turtles/status] has not the shape [<base>/<id>/status] for the
    base [quayos/turtles], and yet the pattern finds the identifier
    [turtles] in it and the registry is called. *)
Lemma C2_counterexample :
  ~ Topic.has_shape (baseTopic (new_Client steady_manager None))
      "quayos/turtles/status" /\
  registry_calls
    (trace (statusHandler (new_Client steady_manager None) VNull
              "quayos/turtles/status" ∅).2)
    = [CallDeleteTurtle "turtles"].
Proof.
  split; [|reflexivity].
  intros (id & Hne & _ & H). apply (f_equal String.length) in H.
  unfold Topic.status_topic in H. rewrite !length_app_s in H.
  cbn in H. lia.
Qed.

(** C2, amended, at the topic [other/topic]. *)
Lemma C2_witness :
  statusHandler (new_Client steady_manager None) (VRef 1) "other/topic"
    (axe_store (VBool true))
    = (Fulfils, World (axe_store (VBool true)) [LogError "other/topic"] []) /\
  registry_calls
    (trace (statusHandler (new_Client steady_manager None) (VRef 1) "other/topic"
              (axe_store (VBool true))).2) = [].
Proof.
  apply (C2_unmatched_topic_discarded (new_Client steady_manager None)
           (VRef 1) "other/topic" (axe_store (VBool true))).
  apply turtleIdMatch_None. reflexivity.
Defined.

(** The payload of the specification,
    [{ online: true, inventory: [ {name:"axe"}, [1,2], {name:"pick"} ] }]:
    the update receives the inventory [[ {name:"axe"}, null, {name:"pick"} ]],
    the two objects being the ones of the payload. *)
Example axe_inventory_sanitized :
  exists h',
    update_calls
      (trace (statusHandler (new_Client steady_manager None) (VRef 1)
                "quayos/turtles/t42/status" (axe_store (VBool true))).2)
      = [("t42", VRef 1, h')] /\
    inventory_of h' (VRef 1) = Some [VRef 3; VNull; VRef 5] /\
    h' !! 3%positive = Some (Obj (<["name" := VString "axe"]> ∅)) /\
    h' !! 5%positive = Some (Obj (<["name" := VString "pick"]> ∅)).
Proof. eexists. split_and!; by vm_compute. Qed.

(** C4 at the payload of the specification. *)
Lemma C4_witness :
  exists h' inv',
    inventory_of h' (VRef 1) = Some inv' /\
    arrays_nulled (axe_store (VBool true)) [VRef 3; VRef 4; VRef 5] inv' /\
    (forall r, r <> 1%positive -> r ∈ dom (axe_store (VBool true)) ->
               h' !! r = axe_store (VBool true) !! r) /\
    (forall c,
       c ∈ update_calls
             (trace (statusHandler (new_Client steady_manager None) (VRef 1)
                       (Topic.status_topic "quayos/turtles" "t42")
                       (axe_store (VBool true))).2) ->
       c = ("t42", VRef 1, h')) /\
    (forall t, getTurtle (turtles (new_Client steady_manager None)) "t42"
               = Returns (Some t) ->
       update_calls
         (trace (statusHandler (new_Client steady_manager None) (VRef 1)
                   (Topic.status_topic "quayos/turtles" "t42")
                   (axe_store (VBool true))).2)
         = [("t42", VRef 1, h')]).
Proof.
  apply (C4_online_true_arrays_nulled (new_Client steady_manager None)
           "quayos/turtles" "t42" 1%positive 2%positive
           (Obj (<["online" := VBool true]> (<["inventory" := VRef 2]> ∅)))
           [VRef 3; VRef 4; VRef 5] (axe_store (VBool true)));
    [discriminate | reflexivity..].
Defined.

(** C5 at the topic [quayos/turtles/t42/status]. *)
Lemma C5_witness :
  registry_calls
    (trace (statusHandler (new_Client steady_manager None) VNull
              (Topic.status_topic "quayos/turtles" "t42") ∅).2)
    = [CallDeleteTurtle "t42"].
Proof.
  apply (C5_null_payload_deletes_once (new_Client steady_manager None)
           "quayos/turtles" "t42" ∅); [discriminate | reflexivity].
Defined.

(** The payload [{ online: false, inventory: [ [1,2] ] }] of the
    specification: the update sees the inventory [[ [1,2] ]]. *)
Example offline_inventory_kept :
  update_calls
    (trace (statusHandler (new_Client steady_manager None) (VRef 1)
              "quayos/turtles/t42/status" offline_store).2)
    = [("t42", VRef 1, offline_store)] /\
  inventory_of offline_store (VRef 1) = Some [VRef 3] /\
  offline_store !! 3%positive = Some (Arr [VNumber 1; VNumber 2] ∅).
Proof. split_and!; by vm_compute. Qed.

(** C6 at the payload [{ online: false, inventory: [ [1,2] ] }]. *)
Lemma C6_witness :
  (forall c,
     c ∈ update_calls
           (trace (statusHandler (new_Client steady_manager None) (VRef 1)
                     (Topic.status_topic "quayos/turtles" "t42") offline_store).2) ->
     c = ("t42", VRef 1, offline_store)) /\
  (forall t, getTurtle (turtles (new_Client steady_manager None)) "t42"
             = Returns (Some t) ->
     update_calls
       (trace (statusHandler (new_Client steady_manager None) (VRef 1)
                 (Topic.status_topic "quayos/turtles" "t42") offline_store).2)
       = [("t42", VRef 1, offline_store)]) /\
  (forall inv, inventory_of offline_store (VRef 1) = Some inv ->
     inventory_of
       (heap (statusHandler (new_Client steady_manager None) (VRef 1)
                (Topic.status_topic "quayos/turtles" "t42") offline_store).2)
       (VRef 1) = Some inv) /\
  extends offline_store
    (heap (statusHandler (new_Client steady_manager None) (VRef 1)
             (Topic.status_topic "quayos/turtles" "t42") offline_store).2).
Proof.
  apply (C6_offline_inventory_untouched (new_Client steady_manager None)
           "quayos/turtles" "t42" 1%positive
           (Obj (<["online" := VBool false]> (<["inventory" := VRef 2]> ∅)))
           offline_store);
    [discriminate | reflexivity..].
Defined.

(** C8 at a registry whose delete returns a promise that rejects with the
    string [gone]. *)
Lemma C8_witness :
  statusHandler (new_Client (rejecting_manager (VString "gone")) None) VNull
    (Topic.status_topic "quayos/turtles" "t42") ∅
    = (Fulfils,
       World ∅ [LogVerbose "t42" VNull (Topic.status_topic "quayos/turtles" "t42");
                CallDeleteTurtle "t42"] [VString "gone"]).
Proof.
  apply (C8_delete_rejection_not_caught
           (new_Client (rejecting_manager (VString "gone")) None)
           "quayos/turtles" "t42" ∅ (VString "gone"));
    [discriminate | reflexivity..].
Defined.

(** C9 at the payload of the specification: the update is called with
    the caller's object, whose inventory is by then the sanitized one, and
    the object is still so when the handler is done. *)
Lemma C9_witness :
  exists l' inv' h',
    arrays_nulled (axe_store (VBool true)) [VRef 3; VRef 4; VRef 5] inv' /\
    inventory_of (axe_store (VBool true)) (VRef 1) = Some [VRef 3; VRef 4; VRef 5] /\
    axe_store (VBool true) !! l' = None /\
    heap (statusHandler (new_Client steady_manager None)
            (VRef 1) (Topic.status_topic "quayos/turtles" "t42")
            (axe_store (VBool true))).2 !! l'
      = Some (Arr inv' ∅) /\
    inventory_of
      (heap (statusHandler (new_Client steady_manager None)
               (VRef 1) (Topic.status_topic "quayos/turtles" "t42")
               (axe_store (VBool true))).2)
      (VRef 1) = Some inv' /\
    update_calls
      (trace (statusHandler (new_Client steady_manager None)
                (VRef 1) (Topic.status_topic "quayos/turtles" "t42")
                (axe_store (VBool true))).2)
      = [("t42", VRef 1, h')] /\
    h' !! l' = Some (Arr inv' ∅) /\
    inventory_of h' (VRef 1) = Some inv'.
Proof.
  destruct (C9_payload_mutated_in_place
              (new_Client steady_manager None)
              "quayos/turtles" "t42" 1%positive 2%positive
              (Obj (<["online" := VBool true]> (<["inventory" := VRef 2]> ∅)))
              (VBool true) [VRef 3; VRef 4; VRef 5] (axe_store (VBool true)))
    as (l' & inv' & Hnulled & Hbefore & Hfresh & _ & Hnew & Hafter & _ & Hcall);
    [discriminate | reflexivity..|].
  destruct (Hcall steady_turtle eq_refl) as (h' & Hone & _ & Hnew' & Hread').
  exists l', inv', h'. split_and!; assumption.
Defined.

(** The caller's payload after the run: its inventory reads
    [[ {name:"axe"}, null, {name:"pick"} ]]. *)
Example axe_payload_after :
  inventory_of
    (heap (statusHandler (new_Client steady_manager None) (VRef 1)
             "quayos/turtles/t42/status" (axe_store (VBool true))).2)
    (VRef 1) = Some [VRef 3; VNull; VRef 5].
Proof. by vm_compute. Qed.

(** C10 at a payload whose [online] is the number 1. *)
Lemma C10_witness :
  exists h' inv',
    inventory_of h' (VRef 1) = Some inv' /\
    arrays_nulled (axe_store (VNumber 1)) [VRef 3; VRef 4; VRef 5] inv' /\
    (forall c,
       c ∈ update_calls
             (trace (statusHandler (new_Client steady_manager None) (VRef 1)
                       (Topic.status_topic "quayos/turtles" "t42")
                       (axe_store (VNumber 1))).2) ->
       c = ("t42", VRef 1, h')) /\
    (forall t, getTurtle (turtles (new_Client steady_manager None)) "t42"
               = Returns (Some t) ->
       update_calls
         (trace (statusHandler (new_Client steady_manager None) (VRef 1)
                   (Topic.status_topic "quayos/turtles" "t42")
                   (axe_store (VNumber 1))).2)
         = [("t42", VRef 1, h')]).
Proof.
  apply (C10_truthy_online_arrays_nulled (new_Client steady_manager None)
           "quayos/turtles" "t42" 1%positive 2%positive
           (Obj (<["online" := VNumber 1]> (<["inventory" := VRef 2]> ∅)))
           (VNumber 1) [VRef 3; VRef 4; VRef 5] (axe_store (VNumber 1)));
    [discriminate | reflexivity..].
Defined.

(** A non-empty string for [online] does the same; the empty string and 0
    do not. *)
Example online_string_sanitizes :
  inventory_of
    (heap (statusHandler (new_Client steady_manager None) (VRef 1)
             "quayos/turtles/t42/status" (axe_store (VString "yes"))).2)
    (VRef 1) = Some [VRef 3; VNull; VRef 5] /\
  inventory_of
    (heap (statusHandler (new_Client steady_manager None) (VRef 1)
             "quayos/turtles/t42/status" (axe_store (VString ""))).2)
    (VRef 1) = Some [VRef 3; VRef 4; VRef 5] /\
  inventory_of
    (heap (statusHandler (new_Client steady_manager None) (VRef 1)
             "quayos/turtles/t42/status" (axe_store (VNumber 0))).2)
    (VRef 1) = Some [VRef 3; VRef 4; VRef 5].
Proof. split_and!; by vm_compute. Qed.

(** ** Further properties of the topic pattern *)

Section topic_edges.
Import Topic.

(** What ends in ['/'] and is cut somewhere leaves a last piece that has a
    ['/'] in it. *)
Lemma slash_in_last_piece (s pre piece : string) :
  s +:+ "/" = pre +:+ piece -> piece <> EmptyString -> slash_free piece = false.
Proof.
  revert s. induction pre as [|c pre IH]; intros s E Hne.
  - rewrite app_empty_l in E. subst piece. rewrite slash_free_app.
    cbn. apply andb_false_r.
  - destruct s as [|d s].
    + rewrite app_empty_l, app_cons in E. injection E as _ E.
      destruct pre; [by rewrite app_empty_l in E | discriminate].
    + rewrite !app_cons in E. injection E as _ E. by apply (IH s).
Qed.

(** X1. The pattern finds [id] in a topic exactly when the topic is some
    prefix, then [id], then [/status], with [id] a non-empty segment that
    starts the topic or follows a ['/']: what is captured is always the
    whole of the last level before [status], never a part of it. *)
Theorem X1_match_is_whole_last_level (topic id : string) :
  turtleIdMatch topic = Some id <->
  id <> EmptyString /\ slash_free id = true /\
  exists pre, topic = pre +:+ id +:+ "/status" /\
              (pre = EmptyString \/ exists p, pre = p +:+ "/").
Proof.
  split.
  - revert id. induction topic as [|c rest IH]; intros id; cbn [turtleIdMatch].
    + cbn. discriminate.
    + destruct (attempt EmptyString (String c rest)) as [r|] eqn:Hr.
      * intros [= ->]. apply attempt_Some in Hr as (seg & Hne & Hsf & Hs & ->).
        rewrite app_empty_l. split_and!; [done..|].
        exists EmptyString. split; [done | by left].
      * intros H. destruct (IH id H) as (Hne & Hsf & pre & -> & Hpre).
        split_and!; [done..|]. exists (String c pre). split; [done|]. right.
        destruct Hpre as [-> | [p ->]]; [|by exists (String c p)].
        exists EmptyString. rewrite app_empty_l in Hr |- *.
        destruct (not_slash c) eqn:Hc.
        -- assert (attempt EmptyString (String c id +:+ "/status")
                   = Some (String c id)) as Hyes.
           { apply attempt_fresh; [done|]. cbn [slash_free]. by rewrite Hc, Hsf. }
           rewrite app_cons in Hyes. congruence.
        -- by apply not_slash_false in Hc as ->.
  - intros (Hne & Hsf & pre & -> & [-> | [p ->]]).
    + rewrite app_empty_l.
      destruct id as [|c id]; [done|]. rewrite app_cons. cbn [turtleIdMatch].
      rewrite <- app_cons. by rewrite attempt_fresh.
    + rewrite app_assoc_s. by apply (turtleIdMatch_status_topic p id).
Qed.

(** A topic whose last level before [status] is empty is not matched. *)
Lemma empty_level_unmatched (base : string) :
  turtleIdMatch (base +:+ "//status") = None.
Proof.
  apply turtleIdMatch_None. intros pre id Hne Hsf E.
  change (base +:+ "//status") with (base +:+ "/" +:+ "/status") in E.
  rewrite <- !app_assoc_s in E. apply app_inv_tail_s in E.
  apply slash_in_last_piece in E; [congruence | done].
Qed.

End topic_edges.

Section handler_edges.
Context (this : Client).

(** X2. A topic with an empty device level, [<base>//status], which the
    filter [<base>/+/status] lets through, yields no identifier: the
    handler logs the error, calls nothing and resolves, whatever the
    payload. *)
Theorem X2_empty_level_discarded
    (base : string) (message : value) (h : gmap loc obj) :
  statusHandler this message (base +:+ "//status") h =
    (Fulfils, World h [LogError (base +:+ "//status")] []).
Proof. apply run_unmatched, empty_level_unmatched. Qed.

(** X3. Whatever the topic, the payload and the registry, an identifier
    handed to the registry is never empty and never has a ['/'] in it. *)
Theorem X3_registry_ids_are_segments
    (message : value) (topic : string) (h : gmap loc obj) :
  Forall (fun e => exists id, call_target e = Some id /\
                              id <> EmptyString /\ Topic.slash_free id = true)
    (registry_calls (trace (statusHandler this message topic h).2)).
Proof.
  destruct (Topic.turtleIdMatch topic) as [id|] eqn:Hid.
  - destruct (turtleIdMatch_Some topic id Hid) as (Hne & Hsf & _).
    destruct (run_matched_shape this message topic id h Hid) as (rest & -> & Hcalls).
    change (registry_calls (LogVerbose id message topic :: rest))
      with (registry_calls rest).
    destruct Hcalls as [-> | [-> | [-> | [h' ->]]]];
      repeat constructor; by exists id.
  - rewrite run_unmatched by done. constructor.
Qed.

End handler_edges.

(** ** Further properties of the handler *)

Section block_runs.
Context (this : Client).

Lemma type_error_run {A} (msg : string) (w : world) :
  @type_error A msg w =
    (Abrupt (VRef (fresh (dom (heap w)))),
     World (<[fresh (dom (heap w)) := error_object msg]> (heap w))
           (trace w) (unhandled w)).
Proof. reflexivity. Qed.

(** The three ways the sanitizing statement ends: nothing done, the
    inventory replaced, or a [TypeError]. *)
Lemma sanitize_cases (message : value) (w : world) :
  sanitize_inventory message w = (Normal tt, w) \/
  (exists l o li slots ps,
     message = VRef l /\ heap w !! l = Some o /\
     props_of o !! "inventory" = Some (VRef li) /\
     heap w !! li = Some (Arr slots ps) /\
     sanitize_inventory message w =
       (Normal tt,
        World (<[l := with_props o (<["inventory" := VRef (fresh (dom (heap w)))]>
                                      (props_of o))]>
                 (<[fresh (dom (heap w)) := Arr (sanitize_slot (heap w) <$> slots) ∅]>
                    (heap w)))
              (trace w) (unhandled w))) \/
  (exists msg,
     sanitize_inventory message w =
       (Abrupt (VRef (fresh (dom (heap w)))),
        World (<[fresh (dom (heap w)) := error_object msg]> (heap w))
              (trace w) (unhandled w))).
Proof.
  destruct w as [h t u].
  destruct message as [| | | | | |l];
    try (left; reflexivity);
    try (right; right; eexists; reflexivity).
  unfold sanitize_inventory, get_prop, get_heap, mbind, M_bind, mret, M_ret, obj_at.
  cbn -[fresh String.append call_map set_prop].
  destruct (h !! l) as [o|] eqn:Hl; cbn -[fresh String.append call_map set_prop].
  2: { rewrite lookup_empty. by left. }
  destruct (to_boolean (default VUndefined (props_of o !! "online"))); [|by left].
  cbn [heap]. rewrite Hl. cbn -[fresh String.append call_map set_prop].
  destruct (props_of o !! "inventory") as [inv|] eqn:Hinv;
    cbn -[fresh String.append set_prop].
  2: { right; right. eexists. reflexivity. }
  destruct inv as [| | | | | |li];
    try (right; right; eexists; reflexivity).
  unfold call_map, get_heap, mbind, M_bind. cbn -[fresh String.append set_prop].
  destruct (h !! li) as [[psi|es psi]|] eqn:Hli;
    try (right; right; eexists; reflexivity).
  destruct (psi !! "map") eqn:Hmap;
    [right; right; eexists; reflexivity|].
  right; left. exists l, o, li, es, psi. split_and!; try done.
  unfold alloc, set_prop, store, get_heap, mbind, M_bind, obj_at.
  cbn -[fresh String.append].
  rewrite lookup_insert_ne by by eapply fresh_ne.
  by rewrite Hl.
Qed.

End block_runs.

Section forward_runs.
Context (this : Client).

Lemma error_stack (msg : string) :
  props_of (error_object msg) !! "stack" = Some (VString ("TypeError: " +:+ msg)).
Proof. reflexivity. Qed.

(** The catch block on a [TypeError] the runtime has just made. *)
Lemma warn_type_error (msg : string) (h : gmap loc obj) (t : list event) (u : list value) :
  warn_failure (VRef (fresh (dom h)))
    (World (<[fresh (dom h) := error_object msg]> h) t u) =
  (Normal tt,
   World (<[fresh (dom h) := error_object msg]> h)
         (t ++ [LogWarn (VString ("TypeError: " +:+ msg))]) u).
Proof.
  rewrite warn_failure_readable by done. cbn -[fresh String.append error_object].
  unfold obj_at. rewrite lookup_insert_eq. cbn -[fresh String.append error_object].
  by rewrite error_stack.
Qed.

(** The catch block never touches an object of the store. *)
Lemma warn_failure_extends (e : value) (w : world) :
  extends (heap w) (heap (warn_failure e w).2) /\
  unhandled (warn_failure e w).2 = unhandled w.
Proof.
  destruct e; cbn -[fresh String.append];
    (split; [apply extends_refl || apply extends_alloc | done]).
Qed.

(** A payload that is not [null] on a matched topic: the run is the
    forwarding run on the store the sanitizing statement leaves, or ends in
    the warning for the [TypeError] of that statement. *)
Lemma run_nonnull_cases (message : value) (topic id : string) (h : gmap loc obj) :
  is_null message = false ->
  Topic.turtleIdMatch topic = Some id ->
  (sanitize_inventory message (World h [LogVerbose id message topic] [])
     = (Normal tt, World h [LogVerbose id message topic] []) /\
   statusHandler this message topic h = forward_run this id message topic h) \/
  (exists l o li slots ps,
     message = VRef l /\ h !! l = Some o /\
     props_of o !! "inventory" = Some (VRef li) /\
     h !! li = Some (Arr slots ps) /\
     statusHandler this message topic h =
       forward_run this id message topic
         (<[l := with_props o (<["inventory" := VRef (fresh (dom h))]> (props_of o))]>
            (<[fresh (dom h) := Arr (sanitize_slot h <$> slots) ∅]> h))) \/
  (exists msg,
     statusHandler this message topic h =
       (Fulfils,
        World (<[fresh (dom h) := error_object msg]> h)
              [LogVerbose id message topic;
               LogWarn (VString ("TypeError: " +:+ msg))] [])).
Proof.
  intros Hnull Hid. rewrite (run_nonnull this message topic id h Hnull Hid).
  unfold forward_run, try_catch, mbind, M_bind.
  destruct (sanitize_cases message (World h [LogVerbose id message topic] []))
    as [Hs | [(l & o & li & slots & ps & -> & Hl & Hinv & Hli & Hs) | [msg Hs]]];
    rewrite Hs.
  - left. by split.
  - right; left. by exists l, o, li, slots, ps.
  - right; right. exists msg. cbn [heap trace unhandled].
    by rewrite warn_type_error.
Qed.

End forward_runs.

(** Go through what the registry can do in the forwarding run. *)
Ltac registry_cases this id message h1 :=
  unfold forward_run, forward_status, warn_failure, try_catch, mbind, M_bind,
    mret, M_ret, emit, get_heap, outcome, await, throw, block, get_prop,
    type_error, alloc;
  unfold mbind, M_bind, mret, M_ret;
  cbn -[fresh String.append];
  let t := fresh "t" in
  let e := fresh "e" in
  let Hget := fresh "Hget" in
  let Hup := fresh "Hup" in
  destruct (getTurtle (turtles this) id) as [[t|]|e] eqn:Hget;
    cbn -[fresh String.append];
    [ destruct (updateStatus t message h1) as [[|[|e|]]|e] eqn:Hup;
        cbn -[fresh String.append]
    | | ];
    try (destruct e; cbn -[fresh String.append]).

Section forward_facts.
Context (this : Client).

Lemma forward_extends (id : string) (message : value) (topic : string)
    (h1 : gmap loc obj) :
  extends h1 (heap (forward_run this id message topic h1).2) /\
  unhandled (forward_run this id message topic h1).2 = [].
Proof.
  registry_cases this id message h1;
    (split; [apply extends_refl || apply extends_alloc | done]).
Qed.


Lemma forward_pending (id : string) (message : value) (topic : string)
    (h1 : gmap loc obj) :
  (forward_run this id message topic h1).1 = NeverSettles <->
  exists t, getTurtle (turtles this) id = Returns (Some t) /\
            updateStatus t message h1 = Returns (Promise NeverSettles).
Proof.
  registry_cases this id message h1;
    (split; [try discriminate; eauto | intros (t' & Ht & Hu); congruence]).
Qed.

Lemma forward_success (id : string) (message : value) (topic : string)
    (h1 : gmap loc obj) :
  (forward_run this id message topic h1).1 = Fulfils ->
  List.filter is_warning (trace (forward_run this id message topic h1).2) = [] ->
  exists t, getTurtle (turtles this) id = Returns (Some t) /\
    (updateStatus t message h1 = Returns Plain \/
     updateStatus t message h1 = Returns (Promise Fulfils)) /\
    trace (forward_run this id message topic h1).2
      = [LogVerbose id message topic; CallGetTurtle id;
         CallUpdateStatus id message h1].
Proof.
  registry_cases this id message h1; try discriminate; eauto 6.
Qed.

Lemma forward_warning (id : string) (message : value) (topic : string)
    (h1 : gmap loc obj) :
  warning_only_last (trace (forward_run this id message topic h1).2) /\
  (List.filter is_warning (trace (forward_run this id message topic h1).2) <> [] ->
   (forward_run this id message topic h1).1 = Fulfils).
Proof.
  registry_cases this id message h1;
    (split; [ first [ by left | right; by eexists [_; _], _
                    | right; by eexists [_; _; _], _ ]
            | done ]).
Qed.

End forward_facts.

Section forward_calls.
Context (this : Client).

Lemma forward_update_calls (id : string) (message : value) (topic : string)
    (h1 : gmap loc obj) :
  update_calls (trace (forward_run this id message topic h1).2) = [] \/
  update_calls (trace (forward_run this id message topic h1).2)
    = [(id, message, h1)].
Proof.
  registry_cases this id message h1;
    first [left; reflexivity | right; reflexivity].
Qed.

Lemma forward_registry_calls (id : string) (message : value) (topic : string)
    (h1 : gmap loc obj) (t : Turtle) :
  getTurtle (turtles this) id = Returns (Some t) ->
  registry_calls (trace (forward_run this id message topic h1).2)
    = [CallGetTurtle id; CallUpdateStatus id message h1] /\
  update_calls (trace (forward_run this id message topic h1).2)
    = [(id, message, h1)].
Proof.
  intros Ht. registry_cases this id message h1;
    first [discriminate | split; reflexivity].
Qed.

(** An object of the store is still there, as it was, after the sanitizing
    statement, unless it is the payload. *)
Lemma sanitized_kept (h : gmap loc obj) (l : loc) (o o' oa : obj) :
  h !! l = Some o ->
  kept_except l h (<[l := o']> (<[fresh (dom h) := oa]> h)).
Proof.
  intros Hl r Hr Hne. rewrite lookup_insert_ne by done.
  apply lookup_insert_ne. intros <-. by apply is_fresh in Hr.
Qed.

Lemma kept_extends (l : loc) (h h1 h' : gmap loc obj) :
  kept_except l h h1 -> extends h1 h' -> kept_except l h h'.
Proof.
  intros Hk He r Hr Hne. rewrite He; [by apply Hk|].
  apply elem_of_dom. rewrite Hk by done. by apply elem_of_dom.
Qed.

Lemma extends_kept (l : loc) (h h' : gmap loc obj) :
  extends h h' -> kept_except l h h'.
Proof. intros He r Hr _. by apply He. Qed.

End forward_calls.

Section handler_more.
Context (this : Client).

(** X4. The payload [undefined] on a matched topic: reading [online]
    throws, the registry is not called, the [TypeError] ends as a warning
    and the handler resolves. *)
Theorem X4_undefined_payload_warns (topic id : string) (h : gmap loc obj) :
  Topic.turtleIdMatch topic = Some id ->
  exists msg,
    statusHandler this VUndefined topic h =
      (Fulfils,
       World (<[fresh (dom h) := error_object msg]> h)
             [LogVerbose id VUndefined topic;
              LogWarn (VString ("TypeError: " +:+ msg))] []) /\
    registry_calls (trace (statusHandler this VUndefined topic h).2) = [].
Proof.
  intros Hid.
  destruct (run_nonnull_cases this VUndefined topic id h eq_refl Hid)
    as [[Hs _] | [(l & o & li & slots & ps & [=] & _) | [msg Hrun]]].
  - discriminate.
  - exists msg. by rewrite Hrun.
Qed.

(** X5. A payload that is a boolean, a number or a string has no [online]
    to read: it goes to the registry as it is, on the store as it is.
    Every update call of the run is that one; it is made once when the
    registry hands out a turtle. *)
Theorem X5_primitive_payload_forwarded
    (message : value) (topic id : string) (h : gmap loc obj) :
  Topic.turtleIdMatch topic = Some id ->
  is_primitive message = true ->
  extends h (heap (statusHandler this message topic h).2) /\
  (forall c, c ∈ update_calls (trace (statusHandler this message topic h).2) ->
             c = (id, message, h)) /\
  (forall t, getTurtle (turtles this) id = Returns (Some t) ->
     registry_calls (trace (statusHandler this message topic h).2)
       = [CallGetTurtle id; CallUpdateStatus id message h]).
Proof.
  intros Hid Hprim.
  assert (statusHandler this message topic h = forward_run this id message topic h)
    as ->.
  { rewrite (run_nonnull this message topic id h) by by destruct message.
    by destruct message. }
  split_and!.
  - apply forward_extends.
  - intros c Hc.
    destruct (forward_update_calls this id message topic h) as [E | E];
      rewrite E in Hc; [by apply elem_of_nil in Hc|].
    by apply list_elem_of_singleton in Hc.
  - intros t Ht. by apply (forward_registry_calls this id message topic h t).
Qed.

(** The sanitizing statement on a payload object that is online with an
    inventory that cannot be mapped. *)
Lemma sanitize_malformed (l : loc) (o : obj) (w : world) :
  heap w !! l = Some o ->
  to_boolean (default VUndefined (props_of o !! "online")) = true ->
  not_mappable (heap w) (default VUndefined (props_of o !! "inventory")) ->
  exists msg,
    sanitize_inventory (VRef l) w =
      (Abrupt (VRef (fresh (dom (heap w)))),
       World (<[fresh (dom (heap w)) := error_object msg]> (heap w))
             (trace w) (unhandled w)).
Proof.
  intros Hl Hon Hbad. destruct w as [h t u]. cbn [heap trace unhandled] in *.
  unfold sanitize_inventory, get_prop, get_heap, mbind, M_bind, mret, M_ret, obj_at.
  cbn -[fresh String.append call_map set_prop]. rewrite Hl.
  cbn -[fresh String.append call_map set_prop]. rewrite Hon.
  unfold obj_at. cbn [heap]. rewrite Hl. cbn -[fresh String.append call_map set_prop].
  destruct (default VUndefined (props_of o !! "inventory")) as [| | | | | |li];
    try (eexists; reflexivity).
  unfold call_map, get_heap, mbind, M_bind. cbn -[fresh String.append set_prop].
  destruct (h !! li) as [[psi|es psi]|] eqn:Hli; try (eexists; reflexivity).
  destruct (Hbad li es psi eq_refl Hli) as [v ->]. eexists; reflexivity.
Qed.

(** X6. A payload object that is online but whose inventory is no array
    (missing, a string, a plain object, ...): the [map] call throws, the
    registry is not called, the payload is left as it was, and the handler
    resolves after the warning. *)
Theorem X6_malformed_inventory_warns
    (topic id : string) (l : loc) (o : obj) (h : gmap loc obj) :
  Topic.turtleIdMatch topic = Some id ->
  h !! l = Some o ->
  to_boolean (default VUndefined (props_of o !! "online")) = true ->
  not_mappable h (default VUndefined (props_of o !! "inventory")) ->
  exists msg,
    statusHandler this (VRef l) topic h =
      (Fulfils,
       World (<[fresh (dom h) := error_object msg]> h)
             [LogVerbose id (VRef l) topic;
              LogWarn (VString ("TypeError: " +:+ msg))] []) /\
    registry_calls (trace (statusHandler this (VRef l) topic h).2) = [] /\
    heap (statusHandler this (VRef l) topic h).2 !! l = Some o.
Proof.
  intros Hid Hl Hon Hbad.
  destruct (sanitize_malformed l o (World h [LogVerbose id (VRef l) topic] [])
              Hl Hon Hbad) as [msg Hs].
  exists msg.
  assert (statusHandler this (VRef l) topic h =
          (Fulfils,
           World (<[fresh (dom h) := error_object msg]> h)
                 [LogVerbose id (VRef l) topic;
                  LogWarn (VString ("TypeError: " +:+ msg))] [])) as ->.
  { rewrite (run_nonnull this (VRef l) topic id h eq_refl Hid).
    unfold try_catch, mbind, M_bind. rewrite Hs. cbn [heap trace unhandled].
    by rewrite warn_type_error. }
  split_and!; [done..|]. cbn [heap snd].
  rewrite lookup_insert_ne; [done | by eapply fresh_ne].
Qed.

(** X7. A payload object whose [online] is missing or falsy ([false], 0,
    [NaN], the empty string, [null]) is not sanitized: every update call of
    the run is made with the very payload on the store as received, once
    when the registry hands out a turtle, and the store keeps all its
    objects. *)
Theorem X7_falsy_online_not_sanitized
    (topic id : string) (l : loc) (o : obj) (h : gmap loc obj) :
  Topic.turtleIdMatch topic = Some id ->
  h !! l = Some o ->
  to_boolean (default VUndefined (props_of o !! "online")) = false ->
  extends h (heap (statusHandler this (VRef l) topic h).2) /\
  (forall c, c ∈ update_calls (trace (statusHandler this (VRef l) topic h).2) ->
             c = (id, VRef l, h)) /\
  (forall t, getTurtle (turtles this) id = Returns (Some t) ->
     update_calls (trace (statusHandler this (VRef l) topic h).2)
       = [(id, VRef l, h)]).
Proof.
  intros Hid Hl Hoff. apply run_forward; [done..|].
  apply sanitize_skip. unfold obj_at. cbn [heap]. by rewrite Hl.
Qed.

End handler_more.

Section handler_invariants.
Context (this : Client).

Lemma fresh_after (h h1 : gmap loc obj) :
  (forall r, r ∈ dom h -> r ∈ dom h1) -> h !! fresh (dom h1) = None.
Proof.
  intros Hsub. apply not_elem_of_dom. intros Hin%Hsub. by apply is_fresh in Hin.
Qed.

Lemma dom_sanitized (h : gmap loc obj) (l f : loc) (o' oa : obj) (r : loc) :
  r ∈ dom h -> r ∈ dom (<[l := o']> (<[f := oa]> h)).
Proof. rewrite !dom_insert_L. set_solver. Qed.

(** The null payload: what the run is, for each thing [deleteTurtle] can
    do. *)
Lemma delete_run_cases (topic id : string) (h : gmap loc obj) :
  Topic.turtleIdMatch topic = Some id ->
  let t := [LogVerbose id VNull topic; CallDeleteTurtle id] in
  (exists u, statusHandler this VNull topic h = (Fulfils, World h t u) /\
     (u = [] \/ exists e, u = [e] /\
        deleteTurtle (turtles this) id = Returns (Promise (RejectsWith e)))) \/
  (exists e, deleteTurtle (turtles this) id = Throws e /\ readable e = true /\
     statusHandler this VNull topic h
       = (Fulfils, World h (t ++ [LogWarn (stack_of h e)]) [])) \/
  (exists e msg, deleteTurtle (turtles this) id = Throws e /\ readable e = false /\
     statusHandler this VNull topic h
       = (RejectsWith (VRef (fresh (dom h))),
          World (<[fresh (dom h) := error_object msg]> h) t [])).
Proof.
  intros Hid. cbn zeta. rewrite (run_delete this topic id h Hid). cbn zeta.
  destruct (deleteTurtle (turtles this) id) as [[|[|e|]]|e] eqn:Hdel.
  1-4: left; eexists; split; [reflexivity|]; eauto.
  destruct (readable e) eqn:Hread.
  - right; left. exists e. rewrite warn_failure_readable by done. eauto.
  - right; right. destruct e; try discriminate; eexists _, _; eauto.
Qed.

(** X8. The handler writes to no object of the store but the payload
    object: every other object, the original inventory array and the slot
    objects among them, is after the run as it was before, whatever the
    payload, the topic and the registry. *)
Theorem X8_only_payload_object_written
    (message : value) (topic : string) (h : gmap loc obj) (r : loc) :
  r ∈ dom h -> message <> VRef r ->
  heap (statusHandler this message topic h).2 !! r = h !! r.
Proof.
  intros Hr Hne.
  destruct (Topic.turtleIdMatch topic) as [id|] eqn:Hid.
  2: { by rewrite run_unmatched. }
  destruct (is_null message) eqn:Hnull.
  - destruct message; try discriminate.
    destruct (delete_run_cases topic id h Hid)
      as [(u & -> & _) | [(e & _ & _ & ->) | (e & msg & _ & _ & ->)]];
      [done | done |]. by apply extends_alloc.
  - destruct (run_nonnull_cases this message topic id h Hnull Hid)
      as [[_ ->] | [(l & o & li & slots & ps & -> & Hl & _ & _ & ->) | [msg ->]]].
    + by apply forward_extends.
    + eapply kept_extends; [by eapply sanitized_kept | apply forward_extends | done |].
      congruence.
    + by apply extends_alloc.
Qed.

(** X9. The payload object itself is after the run as it was, or differs
    in its [inventory] property alone, which then points at an array that
    was not in the store before. *)
Theorem X9_payload_changes_in_inventory_only
    (topic : string) (l : loc) (o : obj) (h : gmap loc obj) :
  h !! l = Some o ->
  heap (statusHandler this (VRef l) topic h).2 !! l = Some o \/
  exists l', h !! l' = None /\
    heap (statusHandler this (VRef l) topic h).2 !! l
      = Some (with_props o (<["inventory" := VRef l']> (props_of o))).
Proof.
  intros Hl.
  assert (l ∈ dom h) as Hdom by by eapply elem_of_dom_2.
  destruct (Topic.turtleIdMatch topic) as [id|] eqn:Hid.
  2: { left. by rewrite run_unmatched. }
  destruct (run_nonnull_cases this (VRef l) topic id h eq_refl Hid)
    as [[_ ->] | [(l0 & o0 & li & slots & ps & [= <-] & Hl0 & _ & _ & ->) | [msg ->]]].
  - left. destruct (forward_extends this id (VRef l) topic h) as [He _].
    by rewrite He.
  - right. exists (fresh (dom h)). split; [apply not_elem_of_dom, is_fresh|].
    match goal with
    | |- heap (forward_run _ _ _ _ ?h1).2 !! _ = _ =>
        destruct (forward_extends this id (VRef l) topic h1) as [He _]
    end.
    rewrite He by (apply elem_of_dom; rewrite lookup_insert_eq; eauto).
    rewrite lookup_insert_eq. congruence.
  - left. rewrite <- Hl. by apply extends_alloc.
Qed.


End handler_invariants.

Section handler_outcomes.
Context (this : Client).

(** X11. The handler stays pending exactly when it is waiting for an
    update that never completes: the payload is not [null], the registry
    has handed out a turtle, and the promise [updateStatus] returned on
    the one update call of the run never settles. Nothing else makes it
    wait, a [deleteTurtle] promise that never settles included. *)
Theorem X11_pending_only_on_update
    (message : value) (topic : string) (h : gmap loc obj) :
  (statusHandler this message topic h).1 = NeverSettles <->
  is_null message = false /\
  exists id t h1,
    Topic.turtleIdMatch topic = Some id /\
    getTurtle (turtles this) id = Returns (Some t) /\
    update_calls (trace (statusHandler this message topic h).2)
      = [(id, message, h1)] /\
    updateStatus t message h1 = Returns (Promise NeverSettles).
Proof.
  destruct (Topic.turtleIdMatch topic) as [id|] eqn:Hid.
  2: { rewrite run_unmatched by done. split; [discriminate|].
       by intros (_ & ? & ? & ? & [=] & _). }
  destruct (is_null message) eqn:Hnull.
  { destruct message; try discriminate. split; [|by intros [[=] _]].
    destruct (delete_run_cases this topic id h Hid)
      as [(u & -> & _) | [(e & _ & _ & ->) | (e & msg & _ & _ & ->)]];
      discriminate. }
  assert (forall h1,
            statusHandler this message topic h = forward_run this id message topic h1 ->
            (statusHandler this message topic h).1 = NeverSettles <->
            false = false /\
            exists id' t h1',
              Some id = Some id' /\
              getTurtle (turtles this) id' = Returns (Some t) /\
              update_calls (trace (statusHandler this message topic h).2)
                = [(id', message, h1')] /\
              updateStatus t message h1' = Returns (Promise NeverSettles)) as Hfwd.
  { intros h1 ->. rewrite forward_pending. split.
    - intros (t & Ht & Hu). split; [done|]. exists id, t, h1. split_and!; try done.
      by apply (forward_registry_calls this id message topic h1 t).
    - intros (_ & id' & t & h1' & [= <-] & Ht & Hcalls & Hu).
      destruct (forward_registry_calls this id message topic h1 t Ht) as [_ E].
      rewrite E in Hcalls. injection Hcalls as <-. eauto. }
  destruct (run_nonnull_cases this message topic id h Hnull Hid)
    as [[_ E] | [(l & o & li & slots & ps & -> & _ & _ & _ & E) | [msg E]]].
  - by apply (Hfwd h).
  - by eapply Hfwd.
  - rewrite E. split; [discriminate|].
    by intros (_ & ? & ? & ? & _ & _ & [=] & _).
Qed.


(** X13. Success means the update was made: on a payload that is not
    [null] and a matched topic, when the handler resolves with no warning
    in the log, the registry was called twice, [getTurtle] and then
    [updateStatus] with the payload, and that update completed. *)
Theorem X13_quiet_success_means_updated
    (message : value) (topic id : string) (h : gmap loc obj) :
  is_null message = false ->
  Topic.turtleIdMatch topic = Some id ->
  (statusHandler this message topic h).1 = Fulfils ->
  List.filter is_warning (trace (statusHandler this message topic h).2) = [] ->
  exists t h1,
    getTurtle (turtles this) id = Returns (Some t) /\
    (updateStatus t message h1 = Returns Plain \/
     updateStatus t message h1 = Returns (Promise Fulfils)) /\
    registry_calls (trace (statusHandler this message topic h).2)
      = [CallGetTurtle id; CallUpdateStatus id message h1].
Proof.
  intros Hnull Hid.
  destruct (run_nonnull_cases this message topic id h Hnull Hid)
    as [[_ ->] | [(l & o & li & slots & ps & -> & _ & _ & _ & ->) | [msg ->]]];
    [| |discriminate].
  all: intros Hok Hquiet;
    destruct (forward_success this _ _ _ _ Hok Hquiet) as (t & Ht & Hu & _);
    eexists t, _; split_and!; [done | exact Hu |];
    by apply (forward_registry_calls this _ _ _ _ t).
Qed.

(** X14. No retry: a run logs at most one warning, the warning is the last
    thing the run does, and a run with a warning resolves. *)
Theorem X14_warning_is_final
    (message : value) (topic : string) (h : gmap loc obj) :
  warning_only_last (trace (statusHandler this message topic h).2) /\
  (List.filter is_warning (trace (statusHandler this message topic h).2) <> [] ->
   (statusHandler this message topic h).1 = Fulfils).
Proof.
  destruct (Topic.turtleIdMatch topic) as [id|] eqn:Hid.
  2: { rewrite run_unmatched by done. split; [by left | done]. }
  destruct (is_null message) eqn:Hnull.
  - destruct message; try discriminate.
    destruct (delete_run_cases this topic id h Hid)
      as [(u & -> & _) | [(e & _ & _ & ->) | (e & msg & _ & _ & ->)]].
    + split; [by left | done].
    + split; [|done]. right. by eexists _, _.
    + split; [by left | done].
  - destruct (run_nonnull_cases this message topic id h Hnull Hid)
      as [[_ ->] | [(l & o & li & slots & ps & -> & _ & _ & _ & ->) | [msg ->]]];
      [apply forward_warning | apply forward_warning |].
    split; [|done]. right. by eexists [_], _.
Qed.

End handler_outcomes.

Section redelivery.
Context (this this2 : Client).

(** Sanitizing what is sanitized changes nothing, as long as no entry has
    become an array in between. *)
Lemma sanitize_again (h h' : gmap loc obj) (slots : list value) :
  (forall v, v ∈ slots -> isArray h v = false -> isArray h' v = false) ->
  sanitize_slot h' <$> (sanitize_slot h <$> slots) = sanitize_slot h <$> slots.
Proof.
  induction slots as [|v slots IH]; intros Hkeep; [done|].
  cbn [fmap list_fmap]. f_equal.
  - unfold sanitize_slot at 2 3. destruct (isArray h v) eqn:E; [done|].
    unfold sanitize_slot. rewrite Hkeep; [done | by left | done].
  - apply IH. intros v' Hv'. apply Hkeep. by right.
Qed.

(** X15. Handling the same payload object a second time, on the store the
    first run has left, changes nothing in what its inventory reads: the
    sanitizing is idempotent across deliveries, whichever topic and
    registry the second run has. *)
Theorem X15_redelivery_keeps_inventory
    (topic topic2 id : string) (l li : loc) (o : obj) (online : value)
    (slots : list value) (h : gmap loc obj) :
  Topic.turtleIdMatch topic = Some id ->
  h !! l = Some o ->
  props_of o !! "online" = Some online ->
  to_boolean online = true ->
  props_of o !! "inventory" = Some (VRef li) ->
  h !! li = Some (Arr slots ∅) ->
  slots_closed h slots ->
  inventory_of (heap (statusHandler this (VRef l) topic h).2) (VRef l)
    = Some (sanitize_slot h <$> slots) /\
  inventory_of
    (heap (statusHandler this2 (VRef l) topic2
             (heap (statusHandler this (VRef l) topic h).2)).2) (VRef l)
    = Some (sanitize_slot h <$> slots).
Proof.
  intros Hid Hl Hon Htrue Hinv Hli Hclosed.
  destruct (run_sanitized this topic id l li o online slots h Hid Hl Hon Htrue Hinv Hli)
    as (Hext & _ & _).
  destruct (sanitized_store h l o (sanitize_slot h <$> slots) Hl)
    as (Hfresh & Hl1 & Hl'1 & Hread & _).
  set (h' := heap (statusHandler this (VRef l) topic h).2) in *.
  set (l' := fresh (dom h)) in *.
  set (o1 := with_props o (<["inventory" := VRef l']> (props_of o))) in *.
  assert (h' !! l = Some o1) as Hl2.
  { rewrite Hext; [exact Hl1 | by eapply elem_of_dom_2]. }
  assert (h' !! l' = Some (Arr (sanitize_slot h <$> slots) ∅)) as Hl'2.
  { rewrite Hext; [exact Hl'1 | by eapply elem_of_dom_2]. }
  assert (inventory_of h' (VRef l) = Some (sanitize_slot h <$> slots)) as Hread'
    by by eapply inventory_of_extends.
  split; [done|].
  destruct (Topic.turtleIdMatch topic2) as [id2|] eqn:Hid2.
  2: { by rewrite run_unmatched. }
  assert (props_of o1 !! "online" = Some online) as Hon1.
  { unfold o1. rewrite props_with_props. by rewrite lookup_insert_ne. }
  assert (props_of o1 !! "inventory" = Some (VRef l')) as Hinv1.
  { unfold o1. rewrite props_with_props. apply lookup_insert_eq. }
  destruct (run_sanitized this2 topic2 id2 l l' o1 online
              (sanitize_slot h <$> slots) h' Hid2 Hl2 Hon1 Htrue Hinv1 Hl'2)
    as (Hext2 & _ & _).
  destruct (sanitized_store h' l o1 (sanitize_slot h' <$> (sanitize_slot h <$> slots)) Hl2)
    as (_ & _ & _ & Hread2 & _).
  eapply inventory_of_extends in Hread2; [|exact Hext2].
  rewrite Hread2. f_equal. apply sanitize_again.
  intros v Hv Hnot. destruct v as [| | | | | |r]; try done.
  assert (r ∈ dom h) as Hr by by apply Hclosed.
  cbn in Hnot |- *. destruct (decide (r = l)) as [-> | Hne].
  - rewrite Hl in Hnot. rewrite Hl2. unfold o1. by destruct o.
  - assert (h' !! r = h !! r) as ->; [|done].
    rewrite Hext.
    + rewrite lookup_insert_ne by done. apply lookup_insert_ne.
      intros <-. by apply is_fresh in Hr.
    + by apply dom_sanitized.
Qed.

End redelivery.

(** ** C3: a registry failure, by what is thrown *)

Section registry_failures.
Context (this : Client).

(** The forwarding run when the registry fails with [e]: a warning with
    [e.stack] when [stack] can be read, a rejection with the [TypeError] of
    that read when [e] is [undefined] or [null]. *)
Lemma forward_failure (id : string) (message : value) (topic : string)
    (h1 : gmap loc obj) (e : value) :
  (getTurtle (turtles this) id = Throws e \/
   exists t, getTurtle (turtles this) id = Returns (Some t) /\
     (updateStatus t message h1 = Throws e \/
      updateStatus t message h1 = Returns (Promise (RejectsWith e)))) ->
  (readable e = true ->
   (forward_run this id message topic h1).1 = Fulfils /\
   heap (forward_run this id message topic h1).2 = h1 /\
   exists pre,
     trace (forward_run this id message topic h1).2
       = pre ++ [LogWarn (stack_of h1 e)] /\
     List.filter is_warning pre = []) /\
  (readable e = false ->
   (forward_run this id message topic h1).1 = RejectsWith (VRef (fresh (dom h1))) /\
   (exists msg, heap (forward_run this id message topic h1).2 !! fresh (dom h1)
                = Some (error_object msg)) /\
   List.filter is_warning (trace (forward_run this id message topic h1).2) = []).
Proof.
  intros Hfail.
  assert (exists t0,
            forward_run this id message topic h1 =
              (let (c, w) := warn_failure e
                 (World h1 (LogVerbose id message topic :: CallGetTurtle id :: t0) [])
               in (settle c, w)) /\
            List.filter is_warning t0 = []) as (t0 & -> & Ht0).
  { unfold forward_run, forward_status, try_catch, mbind, M_bind, mret, M_ret,
      emit, get_heap, outcome, await, throw.
    cbn -[fresh String.append warn_failure].
    destruct Hfail as [Hg | (t & Hg & [Hu | Hu])]; rewrite Hg;
      cbn -[fresh String.append warn_failure]; [by exists [] | |];
      rewrite Hu; cbn -[fresh String.append warn_failure];
      by exists [CallUpdateStatus id message h1]. }
  split; intros Hread.
  - rewrite warn_failure_readable by done. cbn [fst snd heap trace].
    split_and!; [done..|].
    exists (LogVerbose id message topic :: CallGetTurtle id :: t0).
    split; [done|]. cbn. exact Ht0.
  - destruct (warn_failure_unreadable e
                (World h1 (LogVerbose id message topic :: CallGetTurtle id :: t0) [])
                Hread) as (l & o & E).
    destruct e; try discriminate; cbn -[fresh String.append];
      (split_and!; [done | eexists; apply lookup_insert_eq | cbn; exact Ht0]).
Qed.

(** A failure in the run is a failure of the forwarding run: the store the
    update was called on is the one the sanitizing statement left. *)
Lemma fails_in_run_forward (message : value) (topic id : string)
    (h : gmap loc obj) (e : value) :
  is_null message = false ->
  Topic.turtleIdMatch topic = Some id ->
  fails_in_run this message topic h id e ->
  exists h1,
    statusHandler this message topic h = forward_run this id message topic h1 /\
    (forall r, r ∈ dom h -> r ∈ dom h1) /\
    (getTurtle (turtles this) id = Throws e \/
     exists t, getTurtle (turtles this) id = Returns (Some t) /\
       (updateStatus t message h1 = Throws e \/
        updateStatus t message h1 = Returns (Promise (RejectsWith e)))).
Proof.
  intros Hnull Hid Hfail. unfold fails_in_run in Hfail.
  assert (forall h1,
            statusHandler this message topic h = forward_run this id message topic h1 ->
            getTurtle (turtles this) id = Throws e \/
            exists t, getTurtle (turtles this) id = Returns (Some t) /\
              (updateStatus t message h1 = Throws e \/
               updateStatus t message h1 = Returns (Promise (RejectsWith e)))) as Hfwd.
  { intros h1 E. rewrite E in Hfail.
    destruct Hfail as [[_ Hg] | (t & h1' & Hg & Hcalls & Hu)]; [by left|].
    destruct (forward_registry_calls this id message topic h1 t Hg) as [_ E'].
    rewrite E' in Hcalls. injection Hcalls as <-. right. eauto. }
  destruct (run_nonnull_cases this message topic id h Hnull Hid)
    as [[_ E] | [(l & o & li & slots & ps & -> & _ & _ & _ & E) | [msg E]]].
  - exists h. split_and!; [done | done | by apply Hfwd].
  - eexists. split_and!; [exact E | | by apply Hfwd].
    intros r Hr. by apply dom_sanitized.
  - exfalso. rewrite E in Hfail. cbn [snd trace] in Hfail.
    destruct Hfail as [[Hin _] | (t & h1' & _ & Hcalls & _)]; [|discriminate].
    apply elem_of_cons in Hin as [[=] | Hin].
    apply elem_of_cons in Hin as [[=] | Hin].
    by apply elem_of_nil in Hin.
Qed.

(** C3, where the code breaks it. On a payload that is not [null] and the
    topic of a device, when the registry's get-or-create or update fails in
    the run with [undefined] or [null], the exception is not swallowed:
    reading [err.stack] in the [catch] block throws, the handler rejects
    with the [TypeError] of that read, and no warning is logged. *)
Theorem C3_unreadable_failure_rejects
    (base id : string) (message : value) (h : gmap loc obj) (e : value) :
  is_null message = false ->
  id <> EmptyString -> Topic.slash_free id = true ->
  fails_in_run this message (Topic.status_topic base id) h id e ->
  readable e = false ->
  exists l msg,
    (statusHandler this message (Topic.status_topic base id) h).1
      = RejectsWith (VRef l) /\
    h !! l = None /\
    heap (statusHandler this message (Topic.status_topic base id) h).2 !! l
      = Some (error_object msg) /\
    List.filter is_warning
      (trace (statusHandler this message (Topic.status_topic base id) h).2) = [].
Proof.
  intros Hnull Hne Hsf Hfail Hread.
  pose proof (turtleIdMatch_status_topic base id Hne Hsf) as Hid.
  destruct (fails_in_run_forward message _ id h e Hnull Hid Hfail)
    as (h1 & -> & Hdom & Hfwd).
  destruct (forward_failure id message (Topic.status_topic base id) h1 e Hfwd)
    as [_ Hbad].
  destruct (Hbad Hread) as (Hrej & [msg Hobj] & Hquiet).
  exists (fresh (dom h1)), msg. split_and!; try done.
  by apply fresh_after.
Qed.

(** C3, where the code keeps it. With any other value [e] (an [Error]
    object, a string, ...) the failure is swallowed: the handler resolves,
    the one warning of the run is its last entry, and what it logs is
    [e.stack]. *)
Lemma readable_failure_swallowed
    (base id : string) (message : value) (h : gmap loc obj) (e : value) :
  is_null message = false ->
  id <> EmptyString -> Topic.slash_free id = true ->
  fails_in_run this message (Topic.status_topic base id) h id e ->
  readable e = true ->
  (statusHandler this message (Topic.status_topic base id) h).1 = Fulfils /\
  exists pre,
    trace (statusHandler this message (Topic.status_topic base id) h).2
      = pre ++ [LogWarn
                  (stack_of
                     (heap (statusHandler this message
                              (Topic.status_topic base id) h).2) e)] /\
    List.filter is_warning pre = [].
Proof.
  intros Hnull Hne Hsf Hfail Hread.
  pose proof (turtleIdMatch_status_topic base id Hne Hsf) as Hid.
  destruct (fails_in_run_forward message _ id h e Hnull Hid Hfail)
    as (h1 & -> & Hdom & Hfwd).
  destruct (forward_failure id message (Topic.status_topic base id) h1 e Hfwd)
    as [Hgood _].
  destruct (Hgood Hread) as (Hok & -> & pre & Htrace & Hquiet).
  split; [done|]. by exists pre.
Qed.

End registry_failures.

(** ** The life cycle *)

Section transport_steps.

(** A call into the transport goes well, fails, or never completes. *)
Lemma outcome_cases (c : call_outcome returned) :
  succeeds c \/ (exists e, call_fails c e) \/ c = Returns (Promise NeverSettles).
Proof.
  destruct c as [[|[|e|]]|e]; unfold succeeds, call_fails;
    [left | left | right; left | right; right | right; left]; eauto.
Qed.

Lemma succeeds_not_fails (c : call_outcome returned) (e : value) :
  succeeds c -> call_fails c e -> False.
Proof. intros (r & -> & Hr) [[=] | [= ->]]. discriminate. Qed.

Lemma succeeds_not_pending (c : call_outcome returned) :
  succeeds c -> c = Returns (Promise NeverSettles) -> False.
Proof. intros (r & -> & Hr) [= ->]. discriminate. Qed.

Lemma call_fails_inj (c : call_outcome returned) (e e' : value) :
  call_fails c e -> call_fails c e' -> e = e'.
Proof. intros [-> | ->] [[=] | [=]]; done. Qed.

(** A call that is awaited, and what follows it. *)
Lemma step_succeeds {B} (ev : lifecycle_event) (c : call_outcome returned)
    (k : unit -> L B) (t : list lifecycle_event) :
  succeeds c ->
  (call ev c ≫= λ x, wait x ≫= k) t = k tt (t ++ [ev]).
Proof. intros (r & -> & Hr). by destruct r as [|[| |]]. Qed.

Lemma step_fails {B} (ev : lifecycle_event) (c : call_outcome returned)
    (k : unit -> L B) (t : list lifecycle_event) (e : value) :
  call_fails c e ->
  (call ev c ≫= λ x, wait x ≫= k) t = (Abrupt e, t ++ [ev]).
Proof. by intros [-> | ->]. Qed.

Lemma step_pending {B} (ev : lifecycle_event)
    (k : unit -> L B) (t : list lifecycle_event) :
  (call ev (Returns (Promise NeverSettles)) ≫= λ x, wait x ≫= k) t
    = (Blocked, t ++ [ev]).
Proof. done. Qed.

End transport_steps.

Section lifecycle.
Context (this : Client) (client : MQTTWrapper).

(** [run], step by step. *)
Lemma run_cases :
  (exists e, call_fails (connect client (server this)) e /\
     run this client =
       (RejectsWith e,
        [LogInfo "Connecting to MQTT server"; CallConnect (server this)])) \/
  (connect client (server this) = Returns (Promise NeverSettles) /\
     run this client =
       (NeverSettles,
        [LogInfo "Connecting to MQTT server"; CallConnect (server this)])) \/
  (succeeds (connect client (server this)) /\
   let t := [LogInfo "Connecting to MQTT server"; CallConnect (server this);
             LogInfo "Registering topic handlers";
             CallSubscribe (subscription this)] in
   ((exists e, call_fails (subscribe client (subscription this)) e /\
       run this client = (RejectsWith e, t)) \/
    (subscribe client (subscription this) = Returns (Promise NeverSettles) /\
       run this client = (NeverSettles, t)) \/
    (succeeds (subscribe client (subscription this)) /\
     ((exists e, settlement_of (onOffline client) = RejectsWith e /\
         run this client = (RejectsWith e, t)) \/
      (settlement_of (onOffline client) = NeverSettles /\
         run this client = (NeverSettles, t)) \/
      (settlement_of (onOffline client) = Fulfils /\
         run this client = (Fulfils, t ++ [LogInfo "Shut down MQTT client"])))))).
Proof.
  unfold run, run_body.
  change (note ?e ≫= ?k) with (fun t => k tt (t ++ [e])). cbn beta.
  destruct (outcome_cases (connect client (server this))) as [Hc | [[e Hc] | Hc]].
  2: { left. exists e. split; [done|]. by rewrite (step_fails _ _ _ _ e). }
  2: { right; left. split; [done|]. by rewrite Hc. }
  right; right. split; [done|]. cbn zeta.
  rewrite step_succeeds by done.
  change (note ?e ≫= ?k) with (fun t => k tt (t ++ [e])). cbn beta.
  destruct (outcome_cases (subscribe client (subscription this)))
    as [Hs | [[e Hs] | Hs]].
  2: { left. exists e. split; [done|]. by rewrite (step_fails _ _ _ _ e). }
  2: { right; left. split; [done|]. by rewrite Hs. }
  right; right. split; [done|].
  rewrite step_succeeds by done.
  unfold wait, note, mbind, L_bind.
  destruct (onOffline client) as [|[|e|]]; cbn;
    [right; right | right; right | left; exists e | right; left]; done.
Qed.

End lifecycle.

(** Two facts about one call that cannot both hold. *)
Ltac clash :=
  exfalso;
  match goal with
  | H1 : succeeds ?c, H2 : call_fails ?c _ |- _ =>
      exact (succeeds_not_fails _ _ H1 H2)
  | H1 : succeeds ?c, H2 : ?c = Returns (Promise NeverSettles) |- _ =>
      exact (succeeds_not_pending _ H1 H2)
  | H1 : call_fails ?c _, H2 : ?c = Returns (Promise NeverSettles) |- _ =>
      destruct H1; congruence
  | H1 : settlement_of ?r = _, H2 : settlement_of ?r = _ |- _ => congruence
  end.

Section lifecycle_properties.
Context (this : Client) (client : MQTTWrapper).

(** X16. [run] resolves exactly when the connection, the subscription and
    the wait for the end of the connection all go well; its log is then the
    five steps in order, the subscription being made on the filter
    [<baseTopic>/+/status]. *)
Theorem X16_run_resolves_after_offline :
  ((run this client).1 = Fulfils <->
   succeeds (connect client (server this)) /\
   succeeds (subscribe client (subscription this)) /\
   settlement_of (onOffline client) = Fulfils) /\
  ((run this client).1 = Fulfils ->
   (run this client).2 =
     [LogInfo "Connecting to MQTT server"; CallConnect (server this);
      LogInfo "Registering topic handlers";
      CallSubscribe (baseTopic this +:+ "/+/status");
      LogInfo "Shut down MQTT client"]).
Proof.
  destruct (run_cases this client)
    as [(e & Hc & ->) | [(Hc & ->) |
        (Hc & [(e & Hs & ->) | [(Hs & ->) |
        (Hs & [(e & Ho & ->) | [(Ho & ->) | (Ho & ->)]])]])]];
    (split; [split|]); try discriminate; try done.
  all: intros (Hc' & Hs' & Ho'); clash.
Qed.

(** X17. [run] has no [catch]: it rejects with [e] exactly when the first
    step that does not go well fails with [e], be it the connection, the
    subscription or the promise of the end of the connection. *)
Theorem X17_run_rejects_with_first_failure (e : value) :
  (run this client).1 = RejectsWith e <->
  call_fails (connect client (server this)) e \/
  (succeeds (connect client (server this)) /\
   call_fails (subscribe client (subscription this)) e) \/
  (succeeds (connect client (server this)) /\
   succeeds (subscribe client (subscription this)) /\
   settlement_of (onOffline client) = RejectsWith e).
Proof.
  destruct (run_cases this client)
    as [(e' & Hc & ->) | [(Hc & ->) |
        (Hc & [(e' & Hs & ->) | [(Hs & ->) |
        (Hs & [(e' & Ho & ->) | [(Ho & ->) | (Ho & ->)]])]])]];
    cbn [fst]; split; try discriminate.
  all: try (intros [= ->]; eauto; fail).
  all: intros [Hc' | [(Hc' & Hs') | (Hc' & Hs' & Ho')]].
  all: try (f_equal; by eapply call_fails_inj).
  all: try congruence.
  all: clash.
Qed.

(** X18. What [run] never does: it does not subscribe before the
    connection is made, nor on any filter but [<baseTopic>/+/status]; it
    does not report the shutdown unless it resolves; it does not
    disconnect. *)
Theorem X18_run_order :
  (forall f, CallSubscribe f ∈ (run this client).2 ->
     f = baseTopic this +:+ "/+/status" /\
     succeeds (connect client (server this))) /\
  (LogInfo "Shut down MQTT client" ∈ (run this client).2 ->
   (run this client).1 = Fulfils) /\
  CallDisconnect ∉ (run this client).2.
Proof.
  destruct (run_cases this client)
    as [(e' & Hc & ->) | [(Hc & ->) |
        (Hc & [(e' & Hs & ->) | [(Hs & ->) |
        (Hs & [(e' & Ho & ->) | [(Ho & ->) | (Ho & ->)]])]])]];
    cbn [fst snd app]; split_and!;
    try (intros f Hf; repeat (apply elem_of_cons in Hf as [Hf | Hf];
                              [try discriminate; by injection Hf as -> |]);
         by apply elem_of_nil in Hf);
    try (intros Hf; repeat (apply elem_of_cons in Hf as [Hf | Hf];
                            [try discriminate; done |]);
         by apply elem_of_nil in Hf).
Qed.

(** [stop], case by case on what [disconnect] does. *)
Lemma stop_cases (first_wins : bool) :
  (exists e, disconnect client = Throws e /\
     stop first_wins client =
       (RejectsWith e, [LogInfo "Stopping client"; CallDisconnect])) \/
  (exists r, disconnect client = Returns r /\
     stop first_wins client =
       match promise_all first_wins r (onOffline client) with
       | Fulfils => (Fulfils, [LogInfo "Stopping client"; CallDisconnect;
                               LogInfo "Client stopped"])
       | s => (s, [LogInfo "Stopping client"; CallDisconnect])
       end).
Proof.
  unfold stop, stop_body, note, call, wait, mbind, L_bind.
  destruct (disconnect client) as [r|e]; [right | left; by exists e].
  exists r. split; [done|]. cbn. by destruct (promise_all first_wins r _).
Qed.

(** X19. [stop] resolves exactly when the disconnection goes well and the
    connection ends; its log is then the request and the two entries
    around it. *)
Theorem X19_stop_resolves_when_offline (first_wins : bool) :
  ((stop first_wins client).1 = Fulfils <->
   succeeds (disconnect client) /\ settlement_of (onOffline client) = Fulfils) /\
  ((stop first_wins client).1 = Fulfils ->
   (stop first_wins client).2 =
     [LogInfo "Stopping client"; CallDisconnect; LogInfo "Client stopped"]).
Proof.
  destruct (stop_cases first_wins) as [(e & Hd & ->) | (r & Hd & ->)].
  - split; [split|]; try discriminate. intros [(r & Hr & _) _]. congruence.
  - unfold succeeds, promise_all. rewrite Hd.
    destruct r as [|[|e1|]], (onOffline client) as [|[|e2|]], first_wins;
      cbn; (split; [split|]); try discriminate; try done; eauto;
      try (intros [(r' & [= <-] & Hr') Ho]; discriminate).
Qed.

(** X20. [stop] rejects exactly when the disconnection throws, or its
    promise rejects, or the promise of the end of the connection rejects,
    and then with one of these reasons: a failed disconnection is reported
    even when the connection never goes offline, and so is a failed
    connection while the disconnection is still pending. *)
Theorem X20_stop_rejects_on_any_failure (first_wins : bool) :
  ((exists e, (stop first_wins client).1 = RejectsWith e) <->
   (exists e, call_fails (disconnect client) e) \/
   (exists r e, disconnect client = Returns r /\
                settlement_of (onOffline client) = RejectsWith e)) /\
  (forall e, (stop first_wins client).1 = RejectsWith e ->
     call_fails (disconnect client) e \/
     settlement_of (onOffline client) = RejectsWith e).
Proof.
  destruct (stop_cases first_wins) as [(e & Hd & ->) | (r & Hd & ->)].
  - unfold call_fails. rewrite Hd. split; [split|].
    + intros _. left. eauto.
    + intros _. by exists e.
    + intros e' [= <-]. by left; left.
  - unfold call_fails, promise_all. rewrite Hd.
    destruct r as [|[|e1|]], (onOffline client) as [|[|e2|]], first_wins;
      cbn; (split; [split|]).
    all: try (intros [e' [=]]; fail).
    all: try (intros e' [=]; fail).
    all: try (intros [[e' [[=] | [=]]] | (r' & e' & _ & [=])]; fail).
    all: try (intros _; eexists; reflexivity).
    all: try (intros _; left; eexists; right; reflexivity).
    all: try (intros _; right; eexists _, _; split; reflexivity).
    all: try (intros e' [= <-]; (left; right; reflexivity) || (right; reflexivity)).
Qed.

End lifecycle_properties.

Section construction.

(** X21. The constructor: the registry is kept; the server and the base
    topic are never empty; a non-empty option is taken as it is, a missing
    or empty one gives the default. *)
Theorem X21_constructor_defaults (tm : TurtleManager) (options : option Options) :
  turtles (new_Client tm options) = tm /\
  server (new_Client tm options) <> EmptyString /\
  baseTopic (new_Client tm options) <> EmptyString /\
  (forall s, options ≫= opt_baseTopic = Some s -> s <> EmptyString ->
             baseTopic (new_Client tm options) = s) /\
  (forall s, options ≫= opt_server = Some s -> s <> EmptyString ->
             server (new_Client tm options) = s) /\
  (options ≫= opt_baseTopic = None \/ options ≫= opt_baseTopic = Some EmptyString ->
   baseTopic (new_Client tm options) = "quayos/turtles") /\
  (options ≫= opt_server = None \/ options ≫= opt_server = Some EmptyString ->
   server (new_Client tm options) = "mqtt://test.mosquitto.org").
Proof.
  unfold new_Client, or_default. cbn [turtles server baseTopic].
  destruct (options ≫= opt_baseTopic) as [b|], (options ≫= opt_server) as [s|].
  all: repeat match goal with
         | |- context [String.eqb ?x EmptyString] =>
             destruct (String.eqb_spec x EmptyString)
         end.
  all: split_and!; try done.
  all: try (intros ? [= <-]; done).
  all: try (intros [[=] | [= ->]]; done).
  all: try (intros [[=] | [=]]; congruence).
Qed.

End construction.

(** ** The further properties at sample inputs *)

(** X4 at the topic [quayos/turtles/t42/status]. *)
Lemma X4_witness :
  exists msg,
    statusHandler (new_Client steady_manager None) VUndefined
      "quayos/turtles/t42/status" ∅ =
      (Fulfils,
       World (<[fresh (dom (∅ : gmap loc obj)) := error_object msg]> ∅)
             [LogVerbose "t42" VUndefined "quayos/turtles/t42/status";
              LogWarn (VString ("TypeError: " +:+ msg))] []) /\
    registry_calls
      (trace (statusHandler (new_Client steady_manager None) VUndefined
                "quayos/turtles/t42/status" ∅).2) = [].
Proof.
  apply (X4_undefined_payload_warns (new_Client steady_manager None)
           "quayos/turtles/t42/status" "t42" ∅).
  reflexivity.
Defined.

(** X5 at the payload 5. *)
Lemma X5_witness :
  extends ∅
    (heap (statusHandler (new_Client steady_manager None) (VNumber 5)
             "quayos/turtles/t42/status" ∅).2) /\
  (forall c,
     c ∈ update_calls
           (trace (statusHandler (new_Client steady_manager None) (VNumber 5)
                     "quayos/turtles/t42/status" ∅).2) ->
     c = ("t42", VNumber 5, ∅)) /\
  (forall t, getTurtle (turtles (new_Client steady_manager None)) "t42"
             = Returns (Some t) ->
     registry_calls
       (trace (statusHandler (new_Client steady_manager None) (VNumber 5)
                 "quayos/turtles/t42/status" ∅).2)
       = [CallGetTurtle "t42"; CallUpdateStatus "t42" (VNumber 5) ∅]).
Proof.
  apply (X5_primitive_payload_forwarded (new_Client steady_manager None)
           (VNumber 5) "quayos/turtles/t42/status" "t42" ∅); reflexivity.
Defined.

(** X6 at the payload [{ online: true, inventory: "axe" }]. *)
Lemma X6_witness :
  exists msg,
    statusHandler (new_Client steady_manager None) (VRef 1)
      "quayos/turtles/t42/status" malformed_store =
      (Fulfils,
       World (<[fresh (dom malformed_store) := error_object msg]> malformed_store)
             [LogVerbose "t42" (VRef 1) "quayos/turtles/t42/status";
              LogWarn (VString ("TypeError: " +:+ msg))] []) /\
    registry_calls
      (trace (statusHandler (new_Client steady_manager None) (VRef 1)
                "quayos/turtles/t42/status" malformed_store).2) = [] /\
    heap (statusHandler (new_Client steady_manager None) (VRef 1)
            "quayos/turtles/t42/status" malformed_store).2 !! 1%positive
      = Some (Obj (<["online" := VBool true]>
                     (<["inventory" := VString "axe"]> ∅))).
Proof.
  apply (X6_malformed_inventory_warns (new_Client steady_manager None)
           "quayos/turtles/t42/status" "t42" 1%positive
           (Obj (<["online" := VBool true]> (<["inventory" := VString "axe"]> ∅)))
           malformed_store); [reflexivity.. |].
  intros l es ps H. vm_compute in H. discriminate.
Defined.

(** X7 at the payload [{ inventory: [ [1,2] ] }], which has no [online]. *)
Lemma X7_witness :
  extends bare_store
    (heap (statusHandler (new_Client steady_manager None) (VRef 1)
             "quayos/turtles/t42/status" bare_store).2) /\
  (forall c,
     c ∈ update_calls
           (trace (statusHandler (new_Client steady_manager None) (VRef 1)
                     "quayos/turtles/t42/status" bare_store).2) ->
     c = ("t42", VRef 1, bare_store)) /\
  (forall t, getTurtle (turtles (new_Client steady_manager None)) "t42"
             = Returns (Some t) ->
     update_calls
       (trace (statusHandler (new_Client steady_manager None) (VRef 1)
                 "quayos/turtles/t42/status" bare_store).2)
       = [("t42", VRef 1, bare_store)]).
Proof.
  apply (X7_falsy_online_not_sanitized (new_Client steady_manager None)
           "quayos/turtles/t42/status" "t42" 1%positive
           (Obj (<["inventory" := VRef 2]> ∅)) bare_store); reflexivity.
Defined.

(** X8 at the payload of the specification: the array the payload came
    with is still what it was. *)
Lemma X8_witness :
  heap (statusHandler (new_Client steady_manager None) (VRef 1)
          "quayos/turtles/t42/status" (axe_store (VBool true))).2 !! 2%positive
    = axe_store (VBool true) !! 2%positive.
Proof.
  apply (X8_only_payload_object_written (new_Client steady_manager None)
           (VRef 1) "quayos/turtles/t42/status" (axe_store (VBool true)) 2%positive).
  - apply elem_of_dom. eexists. reflexivity.
  - discriminate.
Defined.

(** X9 at the payload of the specification. *)
Lemma X9_witness :
  heap (statusHandler (new_Client steady_manager None) (VRef 1)
          "quayos/turtles/t42/status" (axe_store (VBool true))).2 !! 1%positive
    = Some (Obj (<["online" := VBool true]> (<["inventory" := VRef 2]> ∅))) \/
  exists l', axe_store (VBool true) !! l' = None /\
    heap (statusHandler (new_Client steady_manager None) (VRef 1)
            "quayos/turtles/t42/status" (axe_store (VBool true))).2 !! 1%positive
      = Some (with_props
                (Obj (<["online" := VBool true]> (<["inventory" := VRef 2]> ∅)))
                (<["inventory" := VRef l']>
                   (props_of
                      (Obj (<["online" := VBool true]>
                              (<["inventory" := VRef 2]> ∅)))))).
Proof.
  apply (X9_payload_changes_in_inventory_only (new_Client steady_manager None)
           "quayos/turtles/t42/status" 1%positive
           (Obj (<["online" := VBool true]> (<["inventory" := VRef 2]> ∅)))
           (axe_store (VBool true))).
  reflexivity.
Defined.


(** A turtle whose update never completes keeps the handler waiting; a
    delete that never completes does not. *)
Example silent_update_blocks :
  (statusHandler (new_Client silent_manager None) (VRef 1)
     "quayos/turtles/t42/status" offline_store).1 = NeverSettles /\
  (statusHandler (new_Client silent_manager None) VNull
     "quayos/turtles/t42/status" offline_store).1 = Fulfils.
Proof. split; by vm_compute. Qed.

(** X13 at the payload of the specification. *)
Lemma X13_witness :
  exists t h1,
    getTurtle (turtles (new_Client steady_manager None)) "t42" = Returns (Some t) /\
    (updateStatus t (VRef 1) h1 = Returns Plain \/
     updateStatus t (VRef 1) h1 = Returns (Promise Fulfils)) /\
    registry_calls
      (trace (statusHandler (new_Client steady_manager None) (VRef 1)
                "quayos/turtles/t42/status" (axe_store (VBool true))).2)
      = [CallGetTurtle "t42"; CallUpdateStatus "t42" (VRef 1) h1].
Proof.
  apply (X13_quiet_success_means_updated (new_Client steady_manager None)
           (VRef 1) "quayos/turtles/t42/status" "t42" (axe_store (VBool true)));
    [reflexivity | reflexivity | by vm_compute | by vm_compute].
Defined.

(** X15 at the payload of the specification, delivered twice, the second
    time to a registry that throws. *)
Lemma X15_witness :
  inventory_of
    (heap (statusHandler (new_Client steady_manager None) (VRef 1)
             "quayos/turtles/t42/status" (axe_store (VBool true))).2) (VRef 1)
    = Some (sanitize_slot (axe_store (VBool true)) <$> [VRef 3; VRef 4; VRef 5]) /\
  inventory_of
    (heap (statusHandler (new_Client (throwing_manager (VString "boom")) None)
             (VRef 1) "quayos/turtles/t42/status"
             (heap (statusHandler (new_Client steady_manager None) (VRef 1)
                      "quayos/turtles/t42/status" (axe_store (VBool true))).2)).2)
    (VRef 1)
    = Some (sanitize_slot (axe_store (VBool true)) <$> [VRef 3; VRef 4; VRef 5]).
Proof.
  apply (X15_redelivery_keeps_inventory (new_Client steady_manager None)
           (new_Client (throwing_manager (VString "boom")) None)
           "quayos/turtles/t42/status" "quayos/turtles/t42/status" "t42"
           1%positive 2%positive
           (Obj (<["online" := VBool true]> (<["inventory" := VRef 2]> ∅)))
           (VBool true) [VRef 3; VRef 4; VRef 5] (axe_store (VBool true)));
    [reflexivity.. |].
  intros r Hr.
  repeat (apply elem_of_cons in Hr as [[= ->] | Hr];
          [apply elem_of_dom; eexists; reflexivity |]).
  by apply elem_of_nil in Hr.
Defined.

(** The life cycle on sample transports: a quiet run; a broker that cannot
    be reached; a disconnection that fails while the connection stays up. *)
Example run_steady :
  run (new_Client steady_manager None) steady_wrapper =
    (Fulfils,
     [LogInfo "Connecting to MQTT server"; CallConnect "mqtt://test.mosquitto.org";
      LogInfo "Registering topic handlers"; CallSubscribe "quayos/turtles/+/status";
      LogInfo "Shut down MQTT client"]).
Proof. reflexivity. Qed.

Example run_unreachable :
  run (new_Client steady_manager None) (unreachable_wrapper (VString "ECONNREFUSED")) =
    (RejectsWith (VString "ECONNREFUSED"),
     [LogInfo "Connecting to MQTT server"; CallConnect "mqtt://test.mosquitto.org"]).
Proof. reflexivity. Qed.

Example stop_stuck (first_wins : bool) :
  stop first_wins (stuck_wrapper (VString "EPIPE")) =
    (RejectsWith (VString "EPIPE"), [LogInfo "Stopping client"; CallDisconnect]).
Proof. reflexivity. Qed.

(** C3 at a registry whose [getTurtle] throws [undefined], on the payload
    [{ online: false, inventory: [ [1,2] ] }]: the handler rejects. *)
Lemma C3_witness :
  exists l msg,
    (statusHandler (new_Client (throwing_manager VUndefined) None) (VRef 1)
       (Topic.status_topic "quayos/turtles" "t42") offline_store).1
      = RejectsWith (VRef l) /\
    offline_store !! l = None /\
    heap (statusHandler (new_Client (throwing_manager VUndefined) None) (VRef 1)
            (Topic.status_topic "quayos/turtles" "t42") offline_store).2 !! l
      = Some (error_object msg) /\
    List.filter is_warning
      (trace (statusHandler (new_Client (throwing_manager VUndefined) None) (VRef 1)
                (Topic.status_topic "quayos/turtles" "t42") offline_store).2) = [].
Proof.
  apply (C3_unreadable_failure_rejects
           (new_Client (throwing_manager VUndefined) None)
           "quayos/turtles" "t42" (VRef 1) offline_store VUndefined);
    [reflexivity | discriminate | reflexivity | | reflexivity].
  left. split; [|reflexivity].
  apply list_elem_of_In. vm_compute. right. left. reflexivity.
Defined.

(** The same run, evaluated: what the handler rejects with is the
    [TypeError] for reading [stack] of [undefined], made at location 4. *)
Example undefined_thrown_run :
  statusHandler (new_Client (throwing_manager VUndefined) None) (VRef 1)
    "quayos/turtles/t42/status" offline_store
  = (RejectsWith (VRef 4),
     World (<[4%positive :=
                error_object "Cannot read properties of undefined (reading 'stack')"]>
              offline_store)
           [LogVerbose "t42" (VRef 1) "quayos/turtles/t42/status";
            CallGetTurtle "t42"] []).
Proof. by vm_compute. Qed.

(** With a string thrown instead, the failure is swallowed; so it is when
    only the update fails, and only on the store of this run. *)
Example string_thrown_run :
  (statusHandler (new_Client (throwing_manager (VString "boom")) None) (VRef 1)
     "quayos/turtles/t42/status" offline_store).1 = Fulfils /\
  trace (statusHandler (new_Client (throwing_manager (VString "boom")) None) (VRef 1)
           "quayos/turtles/t42/status" offline_store).2
    = [LogVerbose "t42" (VRef 1) "quayos/turtles/t42/status";
       CallGetTurtle "t42"; LogWarn VUndefined].
Proof. split; by vm_compute. Qed.

Example picky_update_swallowed :
  (statusHandler (new_Client picky_manager None) (VRef 1)
     (Topic.status_topic "quayos/turtles" "t42") offline_store).1 = Fulfils /\
  exists pre,
    trace (statusHandler (new_Client picky_manager None) (VRef 1)
             (Topic.status_topic "quayos/turtles" "t42") offline_store).2
      = pre ++ [LogWarn
                  (stack_of
                     (heap (statusHandler (new_Client picky_manager None) (VRef 1)
                              (Topic.status_topic "quayos/turtles" "t42")
                              offline_store).2) (VString "boom"))] /\
    List.filter is_warning pre = [].
Proof.
  apply (readable_failure_swallowed (new_Client picky_manager None)
           "quayos/turtles" "t42" (VRef 1) offline_store (VString "boom"));
    [reflexivity | discriminate | reflexivity | | reflexivity].
  right. eexists _, offline_store. split_and!; [reflexivity | by vm_compute |].
  left. by vm_compute.
Qed.

